(* ===== verification/_CoqProject ===== *)
-Q . S2P
Prelude.v
JsString.v
JsValue.v
Resolver.v
MergeMeals.v
Filters.v
Async.v
FetchRecipes.v
Component.v
View.v
Scenarios.v
