(* ===== verification/Prelude.v ===== *)
(** * A verification development for recipe-finder (src/src/RecipeFinder.jsx)

    The program is one React component, [RecipeFinder].  Eight [useState]
    cells hold the form inputs, the results, the loading flag, the error
    message and the meal shown in the popup.  The button runs
    [fetchRecipes], which does the following:
    - it resolves the search terms from the ingredient text or the mood
      (lines 35-46);
    - it queries TheMealDB's [filter.php] once per term and merges the
      lists by [idMeal] ([mergeMeals], lines 21-32);
    - it fetches each meal's details from [lookup.php];
    - it applies the exclusion filter and the time cap (lines 77-90);
    - it stores the result or an error message (lines 92-99).
    The markup renders that state (lines 104-232).

    ** Files, in dependency order
    - Prelude.v (this file): the code-unit string type [jsstr], the
      literal notation [⟦"..."⟧] in [rf_scope], the hint database [rf] and
      generic list lemmas.
    - JsString.v: the semantics of the ECMAScript built-ins the code
      calls, which are not code of this repository and so are not in the
      map: [split] on one code unit (called at line 36), [trim] with the
      ECMAScript white space set (line 37), [includes] (line 83) and the
      class [ToLowerCase] (lines 79, 83), whose law fixes the ASCII
      range.  It proves the [split]/[join] round trips and the
      idempotence of [trim], which the component's theorems use.
    - JsValue.v: the runtime semantics of values: [undefined], [null],
      strings and objects; truthiness, [||], [String(v)], and property
      lookup through [Object.prototype] ([get], used for line 41).  Like
      JsString.v, it is semantics rather than code of this repository and
      is outside the map.  The exception is [nat_to_js], the template
      literal of line 82.
    - Resolver.v: [moodMapping], [inputList] and [baseIngredients]
      (lines 14-41).
    - MergeMeals.v: the [mergeMeals] loop over a [gset] of seen keys,
      proved equal to a structural reference [keep_first].
    - Filters.v: the 20-slot exclusion loop [slots_loop], [excludeFilter],
      [timeCap] and [finalMeals] (lines 77-90).
    - Async.v: settled promises as [response].  [Promise.all] appears
      twice: as the functional join [promise_all], and as the settlement
      machine [all_settle]/[all_run] over any arrival order, proved to
      agree with the join.  The try block is the monad [Fetch], which
      records the requests issued.  [batch] is the code's
      [await Promise.all(xs.map(async ...))], and [batch_in] is the same
      batch with its responses arriving in a given order.
    - FetchRecipes.v: the server as an oracle record [MealDB] with the
      contract class [MealDBContract], the two async callbacks and
      [fetchRecipes_body] (lines 53-92).  [fetchRecipes_sched] runs the
      same lines with the responses of each batch arriving in an order
      of its own; it is [None] while an [await] is pending.  A term that
      is not well-formed UTF-16 makes [encodeURIComponent] throw, so its
      callback rejects without sending its request.
    - Component.v: the component as a state machine.  [state] holds the
      useState cells plus the searches in flight with the values their
      closure captured.  [step] is executable and [ui_step] is inductive,
      and the two are proved equivalent.  [start_search] is lines 35-51
      and [end_search] is lines 92-99.  [reachable_with P] gives the
      states reachable when every server satisfies [P].  The invariant
      [ui_inv] is proved by rule induction.
    - View.v: the button, the error paragraph, the grid cards and the
      popup with its ingredient list.
    - Scenarios.v: a fixture server, failing servers, and states reached
      by running events from [init].  The claims' witnesses are applied at
      these concrete inputs.

    ** What the theorems show
    - Component: at most one search is in flight, because the button is
      disabled while loading, so the race of spec section 5 cannot
      happen.  Results and an error are never shown together.  The
      message of line 44 is never shown.  A selected meal is one of the
      grid.  An idle component can always start a search, and a search in
      flight can always end.  An input event and the end of a search
      commute, so typing during a search never changes its result.
    - mergeMeals: the loop equals [keep_first].  It keeps exactly the
      first occurrence of each key, in encounter order.
    - Arrival order: when every response of each batch arrives, in any
      order (one order per batch), [fetchRecipes_sched] settles exactly as [fetchRecipes_body]
      (a refinement of the sequential model).  One rejected filter
      response fails the search at once, even if the other responses
      never arrive.
    - fetchRecipes: the requests issued are one filter request per term
      that [encodeURIComponent] accepts, then one lookup per merged meal.
      One rejected request fails the whole search, and so does a term
      with a lone surrogate, whose request is never sent.  Under [MealDBContract] the ids of the result are
      distinct, so the React keys of the grid are distinct.  A successful
      search shows, in order, details its lookups returned, each of which
      passed the exclusion filter.
    - Filters: the slot loop returns within its fuel.  A meal is kept
      exactly when none of its slots 1..20 matches, ignoring case for
      ASCII text.  The caps keep 3, 5 or all
      meals.
    - Resolver: the terms are non-empty, trimmed and comma-free.  Such
      terms joined by commas are read back unchanged (a round trip), and
      the list of search terms is never empty.  The mood and the chicken
      fallback apply only without terms, and a mood naming an [Object.prototype]
      property leaks an inherited value.

    ** Bounds and fuel
    [slots_loop] spends one unit of fuel per test of [i <= 20] and returns
    [None] when the fuel runs out, so running out is never read as a
    result.  [keep_meal] gives it fuel 21 from [i = 1]: twenty passes and
    the final test.  [slots_loop_terminates] proves that fuel [22 - i] is
    enough from any [i <= 21], so the [None] branch of [keep_meal] is
    never taken.  [nat_to_js] uses fuel [n + 1] for the decimal digits of
    [n], enough since [n] has at most [n + 1] digits.  Lengths and
    indices are [nat]; the code does no arithmetic at machine width.

    ** Not modelled
    - The JavaScript runtime as code: the semantics of strings, values,
      [Promise.all] and React's rendering of a child are given in
      JsString.v, JsValue.v, Async.v ([promise_all], [all_settle]) and
      View.v ([render]).  They are not code of this repository, so they
      are not in the map.
    - TheMealDB itself: it is an oracle from each request to the settled
      [data.meals].  URL encoding and JSON parsing are not modelled.
    - React's render scheduling.  The setters of one handler act as one
      atomic update.
    - Static markup, images, class names, the CSS import and
      [console.error].
    - [toLowerCase] outside the ASCII range: it is a class with a Latin-1
      instance, not Unicode's full case mapping. *)

From stdpp Require Export base list strings decidable sets.
From Stdlib Require Export NArith.

(** JavaScript strings are sequences of UTF-16 code units. *)
Abbreviation jsstr := (list N).

(** The code units of an ASCII literal. *)
Definition js (s : string) : jsstr :=
  map Ascii.N_of_ascii (String.list_ascii_of_string s).

Declare Scope rf_scope.
Delimit Scope rf_scope with rf.
Notation "⟦ s ⟧" := (js s%string) : rf_scope.
Open Scope rf_scope.

Create HintDb rf.

(** ** Generic lemmas on lists *)

Section ListFacts.
Context {A : Type}.

Lemma filter_nil_iff (f : A -> bool) (l : list A) :
  List.filter f l = [] <-> Forall (fun x => f x = false) l.
Proof.
  induction l as [|x l IH]; cbn; [split; auto|].
  rewrite Forall_cons, <- IH. destruct (f x); split; intros; by destruct_and?.
Qed.

Lemma Forall_filter_bool (P : A -> Prop) (f : A -> bool) (l : list A) :
  Forall P l -> Forall P (List.filter f l).
Proof. induction 1; cbn; [done|]. destruct (f x); auto. Qed.

Lemma Forall_filter_true (f : A -> bool) (l : list A) :
  Forall (fun x => f x = true) (List.filter f l).
Proof. induction l as [|x l IH]; cbn; [done|]. destruct (f x) eqn:E; auto. Qed.

Lemma filter_bool_sublist (f : A -> bool) (l : list A) : sublist (List.filter f l) l.
Proof.
  induction l as [|x l IH]; cbn; [done|].
  destruct (f x); [by apply sublist_skip|by apply sublist_cons].
Qed.

Lemma filter_filter_bool (f g : A -> bool) (l : list A) :
  List.filter f (List.filter g l) = List.filter (fun x => g x && f x) l.
Proof.
  induction l as [|x l IH]; cbn; [done|].
  destruct (g x); cbn; [destruct (f x); cbn|]; by rewrite IH.
Qed.

Lemma omap_id_Some (l : list A) : omap id (Some <$> l) = l.
Proof. induction l as [|a l IH]; [done|]. simpl. f_equal. exact IH. Qed.

Lemma omap_keys_sublist {B K} (key : B -> K) (key' : A -> K) xs (os : list (option B)) :
  Forall2 (fun x o => forall d, o = Some d -> key d = key' x) xs os ->
  sublist (key <$> omap id os) (key' <$> xs).
Proof.
  induction 1 as [|x [d|] xs os Hx _ IH]; cbn; [done| |by apply sublist_cons].
  rewrite (Hx d) by done. by apply sublist_skip.
Qed.

Lemma omap_key_sublist {B K} (f : A -> option B) (key : B -> K) (key' : A -> K) l :
  (forall x d, f x = Some d -> key d = key' x) ->
  sublist (key <$> omap f l) (key' <$> l).
Proof.
  intros Hf. induction l as [|x l IH]; [done|]. simpl.
  destruct (f x) as [d|] eqn:E; simpl.
  - rewrite (Hf x d E). by apply sublist_skip.
  - by apply sublist_cons.
Qed.

End ListFacts.

#[export] Hint Resolve Forall_filter_bool Forall_filter_true filter_bool_sublist : rf.
