(* ===== verification/JsString.v ===== *)
(** * JavaScript string built-ins used by RecipeFinder.jsx

    Strings are lists of UTF-16 code units ([jsstr]).  This file models
    [String.prototype.split] with a one-unit separator (line 36),
    [String.prototype.trim] (line 37, with the exact ECMAScript set of
    WhiteSpace and LineTerminator code points), [String.prototype.includes]
    (line 83), the truthiness of a string (lines 38, 78, 83) and
    [String.prototype.toLowerCase] (lines 79, 83), the last as a class
    whose law pins it down on ASCII text, and when [encodeURIComponent]
    (line 56) throws. *)

From S2P Require Import Prelude.

(** ** split *)

Section Split.
Variable sep : N.

(** [split_go s = (p, ps)]: [p] is the piece before the first separator,
    [ps] the pieces after it. *)
Fixpoint split_go (s : jsstr) : jsstr * list jsstr :=
  match s with
  | [] => ([], [])
  | c :: s' =>
      let '(p, ps) := split_go s' in
      if decide (c = sep) then ([], p :: ps) else (c :: p, ps)
  end.

(** [s.split(sep)] for a separator of one code unit: the empty string
    gives [[""]]. *)
Definition split (s : jsstr) : list jsstr :=
  let '(p, ps) := split_go s in p :: ps.

(** [ps.join(sep)]. *)
Definition join (ps : list jsstr) : jsstr :=
  match ps with
  | [] => []
  | p :: ps' => p ++ concat (map (fun q => sep :: q) ps')
  end.

End Split.

(** ** trim *)

(** ECMAScript WhiteSpace (TAB, VT, FF, ZWNBSP and the category Zs)
    and LineTerminator (LF, CR, LS, PS). *)
Definition is_js_space (c : N) : bool :=
  match c with
  | 9 | 10 | 11 | 12 | 13 | 32 | 160 | 5760 | 8232 | 8233 | 8239 | 8287
  | 12288 | 65279 => true
  | _ => (8192 <=? c) && (c <=? 8202)
  end%N.

Fixpoint trim_start (s : jsstr) : jsstr :=
  match s with
  | [] => []
  | c :: s' => if is_js_space c then trim_start s' else s
  end.

Definition trim_end (s : jsstr) : jsstr := rev (trim_start (rev s)).

(** [s.trim()]. *)
Definition trim (s : jsstr) : jsstr := trim_end (trim_start s).

(** A string of white space only. *)
Abbreviation all_space := (Forall (fun c => is_js_space c = true)).

(** [s] neither starts nor ends with white space. *)
Definition trimmed (s : jsstr) : Prop :=
  (forall c t, s = c :: t -> is_js_space c = false) /\
  (forall c t, s = t ++ [c] -> is_js_space c = false).

(** ** includes and truthiness *)

Fixpoint prefixb (p s : jsstr) : bool :=
  match p, s with
  | [], _ => true
  | a :: p', b :: s' => (a =? b)%N && prefixb p' s'
  | _ :: _, [] => false
  end.

(** [s.includes(p)]: some position of [s] starts with [p]. *)
Fixpoint includes (s p : jsstr) : bool :=
  prefixb p s || match s with [] => false | _ :: s' => includes s' p end.

(** A string is truthy iff it is not [""]. *)
Definition str_truthy (s : jsstr) : bool :=
  match s with [] => false | _ => true end.

(** ** toLowerCase *)

Definition ascii_lower (c : N) : N :=
  (if (65 <=? c) && (c <=? 90) then c + 32 else c)%N.

(** [toLowerCase] is the Unicode default case mapping; what the code relies
    on is stated as a law: on ASCII text it lowers A-Z and keeps the rest. *)
Class ToLowerCase := {
  toLowerCase : jsstr -> jsstr;
  toLowerCase_ascii : forall s, Forall (fun c => c < 128)%N s ->
    toLowerCase s = map ascii_lower s
}.

(** The Latin-1 part of the mapping: A-Z and U+00C0..U+00DE except
    U+00D7 move by 0x20; other code units are kept. *)
Definition latin1_lower (c : N) : N :=
  (if (65 <=? c) && (c <=? 90) then c + 32
   else if (192 <=? c) && (c <=? 222) && negb (c =? 215) then c + 32
   else c)%N.

#[export] Program Instance latin1_ToLowerCase : ToLowerCase := {
  toLowerCase := map latin1_lower
}.
Next Obligation.
  intros s Hs. induction Hs as [|c s Hc _ IH]; [done|]. cbn. f_equal; [|done].
  unfold latin1_lower, ascii_lower.
  destruct ((65 <=? c) && (c <=? 90))%N; [done|].
  destruct (192 <=? c)%N eqn:E; [apply N.leb_le in E; lia|done].
Qed.

(** ** encodeURIComponent *)

Definition is_high_surrogate (c : N) : bool := (55296 <=? c)%N && (c <=? 56319)%N.
Definition is_low_surrogate (c : N) : bool := (56320 <=? c)%N && (c <=? 57343)%N.

(** [encodeURIComponent(s)] returns exactly when [s] is well-formed UTF-16
    (every high surrogate followed by a low one, no low surrogate on its
    own); otherwise it throws a URIError. *)
Fixpoint utf16_wf (s : jsstr) : bool :=
  match s with
  | [] => true
  | c :: s' =>
      if is_high_surrogate c then
        match s' with d :: s'' => is_low_surrogate d && utf16_wf s'' | [] => false end
      else negb (is_low_surrogate c) && utf16_wf s'
  end.

(** ** Lemmas *)

Section SplitLemmas.
Variable sep : N.

Lemma split_go_join s :
  let '(p, ps) := split_go sep s in join sep (p :: ps) = s.
Proof.
  induction s as [|c s IH]; [done|]. cbn.
  destruct (split_go sep s) as [p ps].
  case_decide as Hc; cbn in *; by rewrite <-?app_comm_cons, ?Hc, IH.
Qed.

(** Round trip: joining the pieces with the separator gives the input. *)
Lemma join_split s : join sep (split sep s) = s.
Proof. unfold split. pose proof (split_go_join s). by destruct (split_go sep s). Qed.

Lemma split_go_no_sep s :
  let '(p, ps) := split_go sep s in Forall (fun q => sep ∉ q) (p :: ps).
Proof.
  induction s as [|c s IH]; cbn.
  - repeat constructor. set_solver.
  - destruct (split_go sep s) as [p ps]. apply Forall_cons in IH as [Hp Hps].
    case_decide as Hc; constructor; auto.
    + set_solver.
    + set_solver.
Qed.

(** No piece contains the separator. *)
Lemma split_no_sep s : Forall (fun q => sep ∉ q) (split sep s).
Proof. unfold split. pose proof (split_go_no_sep s). by destruct (split_go sep s). Qed.

Lemma split_go_nosep p : sep ∉ p -> split_go sep p = (p, []).
Proof.
  induction p as [|c p IH]; intros Hp; [done|]. cbn [split_go].
  rewrite IH by set_solver. by rewrite decide_False by set_solver.
Qed.

Lemma split_go_app_sep p r :
  sep ∉ p -> split_go sep (p ++ sep :: r) = (p, split sep r).
Proof.
  intros Hp. induction p as [|c p IH]; cbn [app split_go].
  - unfold split. destruct (split_go sep r). by rewrite decide_True.
  - rewrite IH by set_solver. by rewrite decide_False by set_solver.
Qed.

Lemma join_cons2 p q ps : join sep (p :: q :: ps) = p ++ sep :: join sep (q :: ps).
Proof. done. Qed.

(** The other round trip: pieces without the separator are recovered. *)
Lemma split_join p ps :
  Forall (fun q => sep ∉ q) (p :: ps) -> split sep (join sep (p :: ps)) = p :: ps.
Proof.
  revert p. induction ps as [|q ps IH]; intros p Hall; apply Forall_cons in Hall as [Hp Hrest].
  - unfold split. cbn [join concat map]. by rewrite app_nil_r, split_go_nosep.
  - rewrite join_cons2. unfold split at 1. rewrite split_go_app_sep by done. by rewrite IH.
Qed.

(** Every piece of [split] is a factor of the input, so a property of all
    its code units carries over to the pieces, and back through [join]. *)
Lemma split_Forall (P : N -> Prop) s :
  Forall P s -> Forall (Forall P) (split sep s).
Proof.
  unfold split. induction 1 as [|c s Hc Hs IH]; cbn; [by repeat constructor|].
  destruct (split_go sep s) as [p ps]. apply Forall_cons in IH as [Hp Hps].
  case_decide; repeat constructor; auto.
Qed.

Lemma join_Forall (P : N -> Prop) ps :
  P sep -> Forall (Forall P) ps -> Forall P (join sep ps).
Proof.
  intros Hsep [|p ps' Hp Hps]; cbn; [done|].
  apply Forall_app; split; [done|]. induction Hps as [|q qs Hq _ IH]; cbn; [done|].
  constructor; [done|]. by apply Forall_app.
Qed.

End SplitLemmas.

Section TrimLemmas.

Lemma trim_start_decomp s : exists w, s = w ++ trim_start s /\ all_space w.
Proof.
  induction s as [|c s [w [Hs Hw]]]; [by exists []|]. cbn.
  destruct (is_js_space c) eqn:E.
  - exists (c :: w). split; [by rewrite Hs at 1|by constructor].
  - by exists [].
Qed.

Lemma trim_start_head s c t : trim_start s = c :: t -> is_js_space c = false.
Proof.
  induction s as [|d s IH]; cbn; [done|].
  destruct (is_js_space d) eqn:E; [done|]. by intros [= -> _].
Qed.

Lemma trim_start_id s : (forall c t, s = c :: t -> is_js_space c = false) -> trim_start s = s.
Proof. destruct s as [|c s]; intros H; [done|]. cbn. by rewrite (H c s). Qed.

Lemma trim_start_app_space w s : all_space w -> trim_start (w ++ s) = trim_start s.
Proof. induction 1 as [|c w Hc _ IH]; [done|]. cbn. by rewrite Hc. Qed.

Lemma trim_start_nil s : trim_start s = [] <-> all_space s.
Proof.
  split.
  - destruct (trim_start_decomp s) as [w [Hs Hw]]. intros E. by rewrite Hs, E, app_nil_r.
  - intros H. rewrite <- (app_nil_r s). by rewrite trim_start_app_space.
Qed.

Lemma trim_end_decomp s : exists w, s = trim_end s ++ w /\ all_space w.
Proof.
  destruct (trim_start_decomp (rev s)) as [w [Hs Hw]]. exists (rev w). split.
  - unfold trim_end. rewrite <- rev_app_distr, <- Hs. by rewrite rev_involutive.
  - by apply Forall_rev.
Qed.

Lemma trim_end_last s c t : trim_end s = t ++ [c] -> is_js_space c = false.
Proof.
  unfold trim_end. intros E. apply (f_equal (@rev N)) in E.
  rewrite rev_involutive, rev_app_distr in E. by apply trim_start_head in E.
Qed.

Lemma trim_end_idem s : trim_end (trim_end s) = trim_end s.
Proof.
  unfold trim_end. rewrite rev_involutive. f_equal.
  apply trim_start_id. intros c t. apply trim_start_head.
Qed.

(** The result of [trim] has no white space at either end. *)
Lemma trim_trimmed s : trimmed (trim s).
Proof.
  unfold trim. split; [|by apply trim_end_last].
  intros c t E. destruct (trim_end_decomp (trim_start s)) as [w [Hs _]].
  rewrite E in Hs. by apply trim_start_head in Hs.
Qed.

(** [trim] removes white space only: the input is the result framed by
    white space. *)
Lemma trim_decomp s : exists w1 w2, s = w1 ++ trim s ++ w2 /\ all_space w1 /\ all_space w2.
Proof.
  destruct (trim_start_decomp s) as [w1 [H1 Hw1]].
  destruct (trim_end_decomp (trim_start s)) as [w2 [H2 Hw2]].
  exists w1, w2. split; [|done]. unfold trim. by rewrite <- H2.
Qed.

Lemma trim_id s : trimmed s -> trim s = s.
Proof.
  intros [Hs He]. unfold trim. rewrite trim_start_id by done.
  unfold trim_end. rewrite (trim_start_id (rev s)); [apply rev_involutive|].
  intros c t E. apply (He c (rev t)). by rewrite <- (rev_involutive s), E.
Qed.

(** [trim] is idempotent. *)
Lemma trim_idem s : trim (trim s) = trim s.
Proof. apply trim_id, trim_trimmed. Qed.

(** [s.trim() === ""] exactly when [s] is all white space. *)
Lemma trim_nil s : trim s = [] <-> all_space s.
Proof.
  split.
  - destruct (trim_decomp s) as (w1 & w2 & Hs & H1 & H2). intros E.
    rewrite Hs, E. by apply Forall_app.
  - intros H. unfold trim. apply trim_start_nil in H. by rewrite H.
Qed.

Lemma trim_Forall (P : N -> Prop) s : Forall P s -> Forall P (trim s).
Proof.
  destruct (trim_decomp s) as (w1 & w2 & Hs & _ & _). rewrite Hs at 1.
  rewrite !Forall_app. naive_solver.
Qed.

End TrimLemmas.

Section IncludesLemmas.

Lemma prefixb_spec p s : prefixb p s = true <-> exists r, s = p ++ r.
Proof.
  revert s. induction p as [|a p IH]; intros [|b s]; cbn.
  - split; eauto.
  - split; eauto.
  - split; [done|]. by intros [r ?].
  - rewrite andb_true_iff, N.eqb_eq, IH. split.
    + intros [-> [r ->]]. by exists r.
    + intros [r [= -> ->]]. eauto.
Qed.

(** [s.includes(p)] holds exactly when [p] is a factor of [s]. *)
Lemma includes_spec s p : includes s p = true <-> exists l r, s = l ++ p ++ r.
Proof.
  induction s as [|c s IH]; cbn; rewrite orb_true_iff, prefixb_spec.
  - split.
    + intros [[r Hr]|?]; [by exists [], r|done].
    + intros ([|? l] & r & E); [by left; exists r|done].
  - rewrite IH. split.
    + intros [[r Hr]|(l & r & ->)]; [by exists [], r|by exists (c :: l), r].
    + intros ([|d l] & r & E); [left; by exists r|].
      injection E as -> ->. right. eauto.
Qed.

Lemma includes_app_l l p r : includes (l ++ p ++ r) p = true.
Proof. apply includes_spec. eauto. Qed.

End IncludesLemmas.

Lemma ascii_lower_lt c : (c < 128)%N -> (ascii_lower c < 128)%N.
Proof.
  unfold ascii_lower. intros Hc.
  destruct ((65 <=? c) && (c <=? 90))%N eqn:E; [|done].
  apply andb_true_iff in E as [_ E%N.leb_le]. lia.
Qed.

Lemma ascii_lower_idem c : ascii_lower (ascii_lower c) = ascii_lower c.
Proof.
  unfold ascii_lower.
  destruct ((65 <=? c) && (c <=? 90))%N eqn:E.
  - apply andb_true_iff in E as [E1%N.leb_le E2%N.leb_le].
    destruct (c + 32 <=? 90)%N eqn:F; [apply N.leb_le in F; lia|].
    by rewrite andb_false_r.
  - by rewrite E.
Qed.

(** [toLowerCase] is idempotent on ASCII text. *)
Lemma toLowerCase_ascii_idem `{ToLowerCase} s :
  Forall (fun c => c < 128)%N s ->
  toLowerCase (toLowerCase s) = toLowerCase s.
Proof.
  intros Hs. rewrite (toLowerCase_ascii s Hs), toLowerCase_ascii.
  - rewrite map_map. apply map_ext, ascii_lower_idem.
  - apply Forall_map. eapply Forall_impl; [exact Hs|]. apply ascii_lower_lt.
Qed.

#[export] Hint Resolve includes_app_l trim_trimmed : rf.


