(* ===== verification/JsValue.v ===== *)
(** * JavaScript values and property access

    The values the component handles besides strings: [undefined], [null],
    strings and objects (an object is kept as the result of converting it
    to a string, which is all the code observes of one).  Truthiness,
    [a || b] (line 41), [ToString] (template literals, lines 56 and 69,
    and [encodeURIComponent]), and property access [o[k]] on an object
    literal, which falls back to [Object.prototype] (line 41,
    [moodMapping[mood]]).  Meals are parsed JSON objects whose fields are
    strings or [null]; [field] reads one (lines 69, 82). *)

From stdpp Require Import countable.
From S2P Require Import Prelude JsString.

Inductive jsval :=
  | JUndefined
  | JNull
  | JStr (s : jsstr)
  | JObj (repr : jsstr).

#[export] Instance jsval_eq_dec : EqDecision jsval.
Proof. solve_decision. Defined.

Definition truthy (v : jsval) : bool :=
  match v with
  | JUndefined | JNull => false
  | JStr s => str_truthy s
  | JObj _ => true
  end.

(** [a || b] *)
Definition js_or (a b : jsval) : jsval := if truthy a then a else b.

(** [String(v)] *)
Definition ToString (v : jsval) : jsstr :=
  match v with
  | JUndefined => ⟦"undefined"⟧
  | JNull => ⟦"null"⟧
  | JStr s => s
  | JObj r => r
  end.

(** Association lists, first binding wins. *)
Fixpoint assoc {A} (k : jsstr) (l : list (jsstr * A)) : option A :=
  match l with
  | [] => None
  | (k', v) :: l' => if decide (k = k') then Some v else assoc k l'
  end.

Definition native_fn (name : string) : jsval :=
  JObj (⟦"function "⟧ ++ js name ++ ⟦"() { [native code] }"⟧).

(** The properties an object literal inherits from [Object.prototype];
    [__proto__] is an accessor returning the prototype object itself. *)
Definition object_prototype : list (jsstr * jsval) :=
  [(⟦"constructor"⟧, native_fn "Object");
   (⟦"hasOwnProperty"⟧, native_fn "hasOwnProperty");
   (⟦"isPrototypeOf"⟧, native_fn "isPrototypeOf");
   (⟦"propertyIsEnumerable"⟧, native_fn "propertyIsEnumerable");
   (⟦"toLocaleString"⟧, native_fn "toLocaleString");
   (⟦"toString"⟧, native_fn "toString");
   (⟦"valueOf"⟧, native_fn "valueOf");
   (⟦"__defineGetter__"⟧, native_fn "__defineGetter__");
   (⟦"__defineSetter__"⟧, native_fn "__defineSetter__");
   (⟦"__lookupGetter__"⟧, native_fn "__lookupGetter__");
   (⟦"__lookupSetter__"⟧, native_fn "__lookupSetter__");
   (⟦"__proto__"⟧, JObj ⟦"[object Object]"⟧)].

(** An object literal: its own properties in insertion order. *)
Definition jsobj := list (jsstr * jsval).

(** [o[k]]: own property, else inherited, else [undefined]. *)
Definition get (o : jsobj) (k : jsstr) : jsval :=
  match assoc k o with
  | Some v => v
  | None => match assoc k object_prototype with Some v => v | None => JUndefined end
  end.

(** A meal as parsed from TheMealDB's JSON: fields holding a string
    ([Some s]) or [null] ([None]). *)
Definition meal := list (jsstr * option jsstr).

(** [meal[k]]: the keys the code reads ([idMeal], [strIngredient1] ..
    [strIngredient20]) are no [Object.prototype] names, so an absent
    field reads as [undefined]. *)
Definition field (m : meal) (k : jsstr) : jsval :=
  match assoc k m with
  | Some (Some s) => JStr s
  | Some None => JNull
  | None => JUndefined
  end.

Definition jsval_encode (v : jsval) : N * jsstr :=
  match v with
  | JUndefined => (0, [])
  | JNull => (1, [])
  | JStr s => (2, s)
  | JObj r => (3, r)
  end%N.

Definition jsval_decode (p : N * jsstr) : jsval :=
  match p with
  | (0, _) => JUndefined
  | (1, _) => JNull
  | (2, s) => JStr s
  | (_, r) => JObj r
  end%N.

#[export] Instance jsval_countable : Countable jsval.
Proof. apply (inj_countable' jsval_encode jsval_decode). by intros []. Defined.

(** [String(n)] for a natural number: its decimal digits. *)
Fixpoint digits_rev (fuel n : nat) : jsstr :=
  match fuel with
  | O => []
  | S f => N.of_nat (48 + n mod 10) :: (if n <? 10 then [] else digits_rev f (n / 10))
  end.

Definition nat_to_js (n : nat) : jsstr := rev (digits_rev (S n) n).

(** ** Lemmas *)

Lemma field_not_obj m k r : field m k <> JObj r.
Proof. unfold field. by destruct (assoc k m) as [[]|]. Qed.

Lemma get_own o k v : assoc k o = Some v -> get o k = v.
Proof. unfold get. by intros ->. Qed.

Lemma get_absent o k :
  assoc k o = None -> assoc k object_prototype = None -> get o k = JUndefined.
Proof. unfold get. by intros -> ->. Qed.

Lemma js_or_truthy a b : truthy a = true -> js_or a b = a.
Proof. unfold js_or. by intros ->. Qed.

Lemma js_or_falsy a b : truthy a = false -> js_or a b = b.
Proof. unfold js_or. by intros ->. Qed.

#[export] Hint Resolve field_not_obj : rf.
