(* ===== verification/Resolver.v ===== *)
(** * Ingredient resolver (RecipeFinder.jsx lines 14-19 and 35-46)

    [moodMapping] is the object literal of lines 14-19; [inputList] and
    [baseIngredients] are the first two statements of [fetchRecipes].
    The terms are JS values: [moodMapping[mood]] may be inherited from
    [Object.prototype]. *)

From S2P Require Import Prelude JsString JsValue.

Definition comma : N := 44.

Definition moodMapping : jsobj :=
  [(⟦"Comfort Food"⟧, JStr ⟦"cheese"⟧);
   (⟦"Spicy"⟧, JStr ⟦"chili"⟧);
   (⟦"Quick Meal"⟧, JStr ⟦"egg"⟧);
   (⟦"Healthy"⟧, JStr ⟦"salad"⟧)].

(** [ingredients.split(",").map((item) => item.trim()).filter((item) => item !== "")] *)
Definition inputList (ingredients : jsstr) : list jsstr :=
  List.filter (fun item => negb (bool_decide (item = [])))
    (map trim (split comma ingredients)).

(** [inputList.length > 0 ? inputList : [moodMapping[mood] || "chicken"]] *)
Definition baseIngredients (ingredients mood : jsstr) : list jsval :=
  let l := inputList ingredients in
  if 0 <? length l then map JStr l
  else [js_or (get moodMapping mood) (JStr ⟦"chicken"⟧)].

(** The option values of the mood select (lines 136-140). *)
Definition mood_options : list jsstr :=
  [⟦""⟧; ⟦"Comfort Food"⟧; ⟦"Spicy"⟧; ⟦"Quick Meal"⟧; ⟦"Healthy"⟧].

(** ** Theorems *)

Lemma inputList_elem ingredients t :
  In t (inputList ingredients) <->
  exists p, In p (split comma ingredients) /\ t = trim p /\ t <> [].
Proof.
  unfold inputList. rewrite filter_In, in_map_iff.
  split.
  - intros [[p [<- Hp]] Hne]. exists p. by rewrite negb_true_iff, bool_decide_eq_false in Hne.
  - intros (p & Hp & -> & Hne). rewrite negb_true_iff, bool_decide_eq_false. eauto.
Qed.

(** C21: every term of [inputList] is non-empty, has no white space at
    either end and no comma. *)
Lemma inputList_terms ingredients :
  Forall (fun t => t <> [] /\ trimmed t /\ comma ∉ t) (inputList ingredients).
Proof.
  apply Forall_forall. intros t Ht%list_elem_of_In.
  apply inputList_elem in Ht as (p & Hp & -> & Hne).
  split_and!; [done|apply trim_trimmed|].
  pose proof (split_no_sep comma ingredients) as Hs. rewrite Forall_forall in Hs.
  specialize (Hs p (proj2 (list_elem_of_In _ _) Hp)).
  assert (Forall (fun c => c <> comma) (trim p)) as Ht.
  { apply trim_Forall, Forall_forall. by intros c Hc ->. }
  intros Hin. by eapply Forall_forall in Ht; [|exact Hin].
Qed.

(** C22: The ingredient field yields no term exactly when it holds nothing but
    commas and white space. *)
Lemma inputList_nil_iff ingredients :
  inputList ingredients = [] <->
  Forall (fun c => c = comma \/ is_js_space c = true) ingredients.
Proof.
  unfold inputList. rewrite filter_nil_iff, Forall_map. split.
  - intros H. pose proof (split_go_join comma ingredients) as Hj. unfold split in H.
    destruct (split_go comma ingredients) as [p0 ps0]. rewrite <- Hj.
    apply join_Forall; [by left|]. eapply Forall_impl; [exact H|]. intros p Hp.
    rewrite negb_false_iff, bool_decide_eq_true, trim_nil in Hp.
    eapply Forall_impl; [exact Hp|]. by right.
  - intros H. pose proof (split_Forall comma _ _ H) as Hall.
    pose proof (split_no_sep comma ingredients) as Hno.
    apply Forall_forall. intros p Hp.
    rewrite negb_false_iff, bool_decide_eq_true, trim_nil.
    eapply Forall_forall in Hall; [|exact Hp]. eapply Forall_forall in Hno; [|exact Hp].
    apply Forall_forall. intros c Hc.
    eapply Forall_forall in Hall as [Heq|Hs]; [|done|exact Hc]. subst c. by exfalso.
Qed.

(** [inputList] keeps a list of terms once its pieces are trimmed. *)
Lemma filter_trim_terms l :
  Forall (fun t => t <> [] /\ trimmed t /\ comma ∉ t) l ->
  List.filter (fun item => negb (bool_decide (item = []))) (map trim l) = l.
Proof.
  induction 1 as [|t l (Hne & Ht & _) _ IH]; [done|]. cbn [map List.filter].
  rewrite trim_id, bool_decide_false by done. cbn [negb]. by rewrite IH.
Qed.

(** C29: round trip between the terms and the ingredient field: terms that
    are non-empty, trimmed and free of commas, typed joined by commas, are
    read back by [inputList] as the same list, in the same order. *)
Theorem inputList_join ts :
  Forall (fun t => t <> [] /\ trimmed t /\ comma ∉ t) ts -> inputList (join comma ts) = ts.
Proof.
  intros Hts. destruct ts as [|t ts]; [done|]. unfold inputList.
  rewrite split_join; [by apply filter_trim_terms|].
  eapply Forall_impl; [exact Hts|]. naive_solver.
Qed.

Lemma baseIngredients_cases ingredients mood :
  (inputList ingredients <> [] /\ baseIngredients ingredients mood = map JStr (inputList ingredients)) \/
  (inputList ingredients = [] /\
   baseIngredients ingredients mood = [js_or (get moodMapping mood) (JStr ⟦"chicken"⟧)]).
Proof.
  unfold baseIngredients. destruct (inputList ingredients) as [|t ts]; [by right|left; done].
Qed.

Lemma baseIngredients_length ingredients mood : 0 < length (baseIngredients ingredients mood).
Proof.
  destruct (baseIngredients_cases ingredients mood) as [[Hne ->]|[_ ->]]; cbn; [|lia].
  rewrite length_map. destruct (inputList ingredients); cbn; [done|lia].
Qed.

(** C16: [baseIngredients] is never empty, so the guard
    [baseIngredients.length === 0] (line 43) never fires. *)
Theorem baseIngredients_nonempty ingredients mood :
  baseIngredients ingredients mood <> [].
Proof.
  destruct (baseIngredients_cases ingredients mood) as [[Hne ->]|[_ ->]]; [|done].
  by destruct (inputList ingredients).
Qed.

(** C17: a non-empty ingredient list is used as is, whatever the mood. *)
Theorem baseIngredients_input ingredients mood :
  inputList ingredients <> [] ->
  baseIngredients ingredients mood = map JStr (inputList ingredients).
Proof. destruct (baseIngredients_cases ingredients mood) as [[_ ->]|[]]; done. Qed.

(** C18: with no ingredient, a mood of [moodMapping] gives its one term. *)
Theorem baseIngredients_mood ingredients mood t :
  inputList ingredients = [] -> assoc mood moodMapping = Some (JStr t) ->
  baseIngredients ingredients mood = [JStr t].
Proof.
  intros Hnil Hm. destruct (baseIngredients_cases ingredients mood) as [[]|[_ ->]]; [done|].
  rewrite (get_own _ _ _ Hm). apply (f_equal (fun v => [v])), js_or_truthy.
  revert Hm. cbn. repeat case_decide; intros [= <-]; done.
Qed.

(** C19: with no ingredient and a mood that is neither a key of
    [moodMapping] nor a property of [Object.prototype], the term is
    "chicken". *)
Theorem baseIngredients_default ingredients mood :
  inputList ingredients = [] -> assoc mood moodMapping = None ->
  assoc mood object_prototype = None ->
  baseIngredients ingredients mood = [JStr ⟦"chicken"⟧].
Proof.
  intros Hnil Hm Hp. destruct (baseIngredients_cases ingredients mood) as [[]|[_ ->]]; [done|].
  by rewrite (get_absent _ _ Hm Hp).
Qed.

(** C20: a mood that names a property of [Object.prototype] is not
    "unrecognized": [moodMapping[mood]] is the inherited value, which is
    truthy, and it becomes the search term. *)
Theorem baseIngredients_inherited ingredients mood v :
  inputList ingredients = [] -> assoc mood moodMapping = None ->
  assoc mood object_prototype = Some v ->
  baseIngredients ingredients mood = [v].
Proof.
  intros Hnil Hm Hp. destruct (baseIngredients_cases ingredients mood) as [[]|[_ ->]]; [done|].
  unfold get. rewrite Hm, Hp. f_equal. apply js_or_truthy.
  revert Hp. cbn. repeat case_decide; intros [= <-]; done.
Qed.

(** ** Witnesses *)

Lemma baseIngredients_input_witness :
  inputList ⟦"chicken, rice"⟧ <> [] /\
  baseIngredients ⟦"chicken, rice"⟧ ⟦"Spicy"⟧ = [JStr ⟦"chicken"⟧; JStr ⟦"rice"⟧].
Proof.
  split; [vm_compute; discriminate|].
  rewrite (baseIngredients_input ⟦"chicken, rice"⟧ ⟦"Spicy"⟧); [reflexivity|vm_compute; discriminate].
Defined.

Lemma baseIngredients_mood_witness :
  baseIngredients ⟦" , "⟧ ⟦"Spicy"⟧ = [JStr ⟦"chili"⟧].
Proof. apply baseIngredients_mood; reflexivity. Defined.

Lemma baseIngredients_default_witness :
  baseIngredients ⟦""⟧ ⟦""⟧ = [JStr ⟦"chicken"⟧].
Proof. apply baseIngredients_default; reflexivity. Defined.

Lemma baseIngredients_inherited_witness :
  baseIngredients ⟦""⟧ ⟦"toString"⟧ = [native_fn "toString"].
Proof. apply baseIngredients_inherited; reflexivity. Defined.

Lemma inputList_join_witness :
  inputList (join comma [⟦"egg"⟧; ⟦"rice"⟧]) = [⟦"egg"⟧; ⟦"rice"⟧].
Proof.
  assert (forall t, trim t = t -> t <> [] -> comma ∉ t -> t <> [] /\ trimmed t /\ comma ∉ t)
    as Hterm by (intros t Ht ? ?; split_and!; [done|rewrite <- Ht; apply trim_trimmed|done]).
  apply inputList_join.
  repeat (apply Forall_cons; split;
    [apply Hterm; [vm_compute; reflexivity|vm_compute; discriminate
                  |apply (bool_decide_unpack _); vm_compute; reflexivity]|]).
  constructor.
Defined.
