(* ===== verification/MergeMeals.v ===== *)
(** * mergeMeals (RecipeFinder.jsx lines 21-32)

    The loop keeps an array [unique] and a [Set] [seen] of keys; a meal is
    pushed when its key is new.  It is modelled generically in the element
    type and the key, with [seen] a [gset], and proved equal to
    [keep_first], a structural reference deduplication.  The properties
    of the result (no repeated key, order of first occurrence, nothing
    lost) are proved once on [keep_first]. *)

From stdpp Require Import gmap.
From S2P Require Import Prelude JsString JsValue.

Section Merge.
Context {K : Type} `{Countable K}.
Context {A : Type} (key : A -> K).

(** One iteration of [for (const m of all)]. *)
Definition merge_step (st : list A * gset K) (m : A) : list A * gset K :=
  let '(unique, seen) := st in
  if decide (key m ∈ seen) then (unique, seen)
  else (unique ++ [m], {[key m]} ∪ seen).

(** [mergeMeals(arrays)]: [arrays.flat()], then the loop from
    [unique = []] and [seen = new Set()]. *)
Definition mergeMeals (arrays : list (list A)) : list A :=
  fst (fold_left merge_step (concat arrays) ([], ∅)).

Definition drop_key (k : K) (l : list A) : list A :=
  List.filter (fun y => negb (bool_decide (key y = k))) l.

(** Reference: keep the head, and drop the later elements with its key
    from the deduplicated tail. *)
Fixpoint keep_first (l : list A) : list A :=
  match l with
  | [] => []
  | x :: l' => x :: drop_key (key x) (keep_first l')
  end.

End Merge.

(** The meal key: [m.idMeal]. *)
Definition idMeal (m : meal) : jsval := field m ⟦"idMeal"⟧.

Section MergeLemmas.
Context {K : Type} `{Countable K}.
Context {A : Type} (key : A -> K).

Definition unseen (seen : gset K) (l : list A) : list A :=
  List.filter (fun y => negb (bool_decide (key y ∈ seen))) l.

Lemma unseen_drop_key seen k l :
  unseen seen (drop_key key k l) = unseen ({[k]} ∪ seen) l.
Proof.
  unfold unseen, drop_key. rewrite filter_filter_bool. apply filter_ext. intros y.
  rewrite <- negb_orb. f_equal. apply eq_bool_prop_intro.
  rewrite orb_True, !bool_decide_spec. set_solver.
Qed.

Lemma unseen_ext seen seen' l :
  (forall k, k ∈ seen <-> k ∈ seen') -> unseen seen l = unseen seen' l.
Proof.
  intros Hs. apply filter_ext. intros y. f_equal. apply bool_decide_ext, Hs.
Qed.

Lemma unseen_cons seen x l :
  unseen seen (x :: l) = if decide (key x ∈ seen) then unseen seen l else x :: unseen seen l.
Proof.
  unfold unseen. cbn. case_decide as Hk;
    [rewrite bool_decide_true by done|rewrite bool_decide_false by done]; done.
Qed.

Lemma fold_merge l u seen :
  fst (fold_left (merge_step key) l (u, seen)) = u ++ unseen seen (keep_first key l).
Proof.
  revert u seen. induction l as [|x l IH]; intros u seen; cbn [fold_left keep_first merge_step];
    [by rewrite app_nil_r|].
  rewrite unseen_cons, unseen_drop_key.
  case_decide as Hx.
  - rewrite IH. f_equal. apply unseen_ext. set_solver.
  - rewrite IH, <- app_assoc. done.
Qed.

Lemma unseen_empty l : unseen ∅ l = l.
Proof.
  unfold unseen. rewrite (filter_ext _ (fun _ => true)), filter_true; [done|].
  intros y. by rewrite bool_decide_eq_false_2 by set_solver.
Qed.

Lemma fold_merge_empty l : fst (fold_left (merge_step key) l ([], ∅)) = keep_first key l.
Proof. by rewrite fold_merge, unseen_empty. Qed.

(** C3: the loop computes the reference deduplication of the flattened
    input. *)
Theorem mergeMeals_keep_first arrays :
  mergeMeals key arrays = keep_first key (concat arrays).
Proof. by unfold mergeMeals; rewrite fold_merge_empty. Qed.

Lemma drop_key_sublist k l : sublist (drop_key key k l) l.
Proof. apply filter_bool_sublist. Qed.

Lemma elem_of_drop_key k x l : x ∈ drop_key key k l <-> x ∈ l /\ key x <> k.
Proof.
  unfold drop_key. rewrite !list_elem_of_In, filter_In, negb_true_iff, bool_decide_eq_false.
  done.
Qed.

Lemma keep_first_sublist l : sublist (keep_first key l) l.
Proof.
  induction l as [|x l IH]; cbn [keep_first]; [done|]. apply sublist_skip.
  by etrans; [apply drop_key_sublist|].
Qed.

Lemma keep_first_NoDup l : NoDup (key <$> keep_first key l).
Proof.
  induction l as [|x l IH]; cbn [keep_first]; [constructor|]. constructor.
  - intros (y & Hy & Hin)%list_elem_of_fmap. apply elem_of_drop_key in Hin. naive_solver.
  - eapply sublist_NoDup; [exact IH|]. apply fmap_sublist, drop_key_sublist.
Qed.

Lemma keep_first_keys l k : k ∈ key <$> keep_first key l <-> k ∈ key <$> l.
Proof.
  induction l as [|x l IH]; cbn [keep_first]; [done|]. rewrite !fmap_cons, !elem_of_cons.
  split; intros [->|Hk]; [by left| |by left|].
  - right. apply IH. eapply elem_of_sublist; [exact Hk|].
    apply fmap_sublist, drop_key_sublist.
  - destruct (decide (k = key x)) as [->|Hne]; [by left|right].
    apply IH, list_elem_of_fmap in Hk as (y & -> & Hy). apply list_elem_of_fmap.
    exists y. by rewrite elem_of_drop_key.
Qed.

Lemma keep_first_elem x l :
  x ∈ keep_first key l <-> exists l1 l2, l = l1 ++ x :: l2 /\ key x ∉ key <$> l1.
Proof.
  induction l as [|y l IH]; cbn [keep_first].
  - split; [by intros ?%elem_of_nil|]. intros ([|] & ? & ? & _); done.
  - rewrite elem_of_cons, elem_of_drop_key, IH. split.
    + intros [->|[(l1 & l2 & -> & Hl1) Hne]]; [by exists [], l; split; [|set_solver]|].
      exists (y :: l1), l2. split; [done|]. rewrite fmap_cons, elem_of_cons. naive_solver.
    + intros ([|z l1] & l2 & E & Hl1); cbn in E; injection E as <- ?; [by left|right].
      rewrite fmap_cons, elem_of_cons in Hl1. naive_solver.
Qed.

(** C5: no two meals of the result share a key. *)
Theorem mergeMeals_NoDup arrays : NoDup (key <$> mergeMeals key arrays).
Proof. unfold mergeMeals; rewrite fold_merge_empty. apply keep_first_NoDup. Qed.

(** the result keeps the order of the flattened input: it is a
    sublist of [arrays.flat()]. *)
Theorem mergeMeals_sublist arrays : sublist (mergeMeals key arrays) (concat arrays).
Proof. unfold mergeMeals; rewrite fold_merge_empty. apply keep_first_sublist. Qed.

(** no key is lost. *)
Theorem mergeMeals_keys arrays k :
  k ∈ key <$> mergeMeals key arrays <-> k ∈ key <$> concat arrays.
Proof. unfold mergeMeals; rewrite fold_merge_empty. apply keep_first_keys. Qed.

(** C4: a meal is kept exactly when it is the first occurrence of its key in
    the flattened input (scan order: term order, then order within a
    response). *)
Theorem mergeMeals_first arrays x :
  x ∈ mergeMeals key arrays <->
  exists l1 l2, concat arrays = l1 ++ x :: l2 /\ key x ∉ key <$> l1.
Proof. unfold mergeMeals; rewrite fold_merge_empty. apply keep_first_elem. Qed.

End MergeLemmas.

(** Rewrites [mergeMeals key arrays] to [keep_first key (concat arrays)]. *)
Ltac merge_to_ref := unfold mergeMeals; rewrite fold_merge_empty.
