(* ===== verification/Filters.v ===== *)
(** * The exclusion filter and the time cap (RecipeFinder.jsx lines 77-90)

    [keep_meal] is the callback of [detailedMeals.filter] (lines 80-86):
    the [for] loop over [strIngredient1] .. [strIngredient20] with its early
    [return false], written with the loop condition [i <= 20] and a fuel
    argument whose exhaustion gives [None].  [excludeFilter] is the [if (exclude)] block, [timeCap] the
    two [slice] statements, [finalMeals] their composition.  Everything is
    generic in the [toLowerCase] of [JsString.ToLowerCase]. *)

From S2P Require Import Prelude JsString JsValue.

Section Filters.
Context `{ToLowerCase}.

(** [`strIngredient${i}`] *)
Definition slot_key (i : nat) : jsstr := ⟦"strIngredient"⟧ ++ nat_to_js i.

(** [ing && ing.toLowerCase().includes(excludeLower)]; a meal field is a
    string, [null] or [undefined] ([field_not_obj]), the last two falsy. *)
Definition slot_hit (excludeLower : jsstr) (ing : jsval) : bool :=
  match ing with
  | JStr s => str_truthy s && includes (toLowerCase s) excludeLower
  | _ => false
  end.

(** [for (let i = ...; i <= 20; i++) { ...; if (...) return false; } return true;]
    One unit of fuel per evaluation of the test [i <= 20]; [None] when the
    fuel runs out, that is, when the loop has not returned. *)
Fixpoint slots_loop (fuel : nat) (excludeLower : jsstr) (m : meal) (i : nat) : option bool :=
  match fuel with
  | O => None
  | S f =>
      if 20 <? i then Some true
      else if slot_hit excludeLower (field m (slot_key i)) then Some false
      else slots_loop f excludeLower m (S i)
  end.

(** The callback of [detailedMeals.filter], from [i = 1]: twenty passes and
    the final test take fuel 21, which [slots_loop_terminates] shows is
    enough, so the [None] branch is never taken. *)
Definition keep_meal (excludeLower : jsstr) (m : meal) : bool :=
  match slots_loop 21 excludeLower m 1 with Some b => b | None => true end.

(** [if (exclude) { const excludeLower = exclude.toLowerCase(); ... }] *)
Definition excludeFilter (exclude : jsstr) (detailedMeals : list meal) : list meal :=
  if str_truthy exclude then
    let excludeLower := toLowerCase exclude in
    List.filter (keep_meal excludeLower) detailedMeals
  else detailedMeals.

End Filters.

(** The option values of the time select (lines 148-151); the second
    holds an EN DASH, U+2013. *)
Definition under_15 : jsstr := ⟦"Under 15 minutes"⟧.
Definition min_30_45 : jsstr := ⟦"30"⟧ ++ [8211%N] ++ ⟦"45 minutes"⟧.
Definition hour_or_more : jsstr := ⟦"1 hour or more"⟧.
Definition time_options : list jsstr := [⟦""⟧; under_15; min_30_45; hour_or_more].

(** Lines 89-90: [finalMeals.slice(0, 3)], then [finalMeals.slice(0, 5)],
    each under its own [if]. *)
Definition timeCap {A} (time : jsstr) (l : list A) : list A :=
  let l := if decide (time = under_15) then take 3 l else l in
  if decide (time = min_30_45) then take 5 l else l.

Definition finalMeals `{ToLowerCase} (exclude time : jsstr) (detailedMeals : list meal) :
  list meal :=
  timeCap time (excludeFilter exclude detailedMeals).

(** ** The exclusion filter *)

Section FilterLemmas.
Context `{ToLowerCase}.

(** Slot [j] of [m] is a non-empty string whose lower case contains
    [excludeLower]. *)
Definition slot_matches (excludeLower : jsstr) (m : meal) (j : nat) : Prop :=
  exists s, field m (slot_key j) = JStr s /\ s <> [] /\
    exists l r, toLowerCase s = l ++ excludeLower ++ r.

Lemma slot_hit_spec e m j :
  slot_hit e (field m (slot_key j)) = true <-> slot_matches e m j.
Proof.
  unfold slot_matches, slot_hit. destruct (field m (slot_key j)) as [| |s|r]; cbn.
  - split; [done|]. by intros (? & ? & _).
  - split; [done|]. by intros (? & ? & _).
  - rewrite andb_true_iff, includes_spec. split.
    + intros [Hs Hi]. exists s. split_and!; [done| |done]. by destruct s.
    + intros (? & [= <-] & Hs & Hi). split; [by destruct s|done].
  - split; [done|]. by intros (? & ? & _).
Qed.

(** With enough fuel the loop returns, after checking the slots [i] .. [20]
    in turn. *)
Lemma slots_loop_forallb fuel e m i :
  i <= 21 -> 22 <= i + fuel ->
  slots_loop fuel e m i =
  Some (forallb (fun j => negb (slot_hit e (field m (slot_key j)))) (seq i (21 - i))).
Proof.
  revert i. induction fuel as [|f IH]; intros i Hi Hf; cbn [slots_loop]; [lia|].
  destruct (20 <? i) eqn:E.
  - apply Nat.ltb_lt in E. by replace (21 - i) with 0 by lia.
  - apply Nat.ltb_ge in E. replace (21 - i) with (S (20 - i)) by lia. cbn [seq forallb].
    destruct (slot_hit e (field m (slot_key i))); [done|]. cbn.
    rewrite IH by lia. by replace (21 - S i) with (20 - i) by lia.
Qed.

(** C11: the loop terminates: from any [i <= 21], fuel [22 - i] (one unit
    per test of [i <= 20]) is enough for it to return. *)
Theorem slots_loop_terminates fuel e m i :
  i <= 21 -> 22 - i <= fuel -> exists b, slots_loop fuel e m i = Some b.
Proof. intros Hi Hf. eexists. apply slots_loop_forallb; lia. Qed.

(** a meal is kept iff none of its slots 1..20 matches. *)
Theorem keep_meal_spec e m :
  keep_meal e m = true <-> forall j, 1 <= j <= 20 -> ~ slot_matches e m j.
Proof.
  unfold keep_meal. rewrite slots_loop_forallb by lia. rewrite forallb_forall.
  setoid_rewrite in_seq. setoid_rewrite negb_true_iff. split.
  - intros Hall j Hj Hm%slot_hit_spec. rewrite Hall in Hm; [done|lia].
  - intros Hall j Hj. apply not_true_is_false. rewrite slot_hit_spec. apply Hall. lia.
Qed.

(** C10: a detailed meal survives the exclusion filter exactly when the
    exclusion is empty or none of its slots 1..20 holds a non-empty
    string whose lower case contains the lowered exclusion. *)
Lemma excludeFilter_elem exclude l m :
  In m (excludeFilter exclude l) <->
  In m l /\ (exclude = [] \/ forall j, 1 <= j <= 20 -> ~ slot_matches (toLowerCase exclude) m j).
Proof.
  unfold excludeFilter. destruct exclude as [|c e]; cbn [str_truthy].
  - naive_solver.
  - rewrite filter_In, keep_meal_spec. naive_solver.
Qed.

(** the filter keeps the order of the detailed meals. *)
Theorem excludeFilter_sublist exclude l : sublist (excludeFilter exclude l) l.
Proof. unfold excludeFilter. destruct (str_truthy exclude); [apply filter_bool_sublist|done]. Qed.

(** an empty exclusion string leaves the list alone. *)
Theorem excludeFilter_empty l : excludeFilter [] l = l.
Proof. done. Qed.

(** C12: for ASCII text the filter ignores case: excluding [exclude] and
    excluding its lower case give the same list. *)
Theorem excludeFilter_case_insensitive exclude l :
  Forall (fun c => c < 128)%N exclude ->
  excludeFilter exclude l = excludeFilter (map ascii_lower exclude) l.
Proof.
  intros Ha. unfold excludeFilter. destruct exclude as [|c e]; [done|]. cbn [map str_truthy].
  rewrite <- (map_cons ascii_lower c e), <- toLowerCase_ascii by done.
  by rewrite toLowerCase_ascii_idem.
Qed.

End FilterLemmas.

(** ** The time cap *)

Section TimeCap.
Context {A : Type}.

Lemma under_15_ne_30_45 : under_15 <> min_30_45.
Proof. vm_compute. discriminate. Qed.

(** C13: "Under 15 minutes" keeps the first 3 meals. *)
Theorem timeCap_under_15 (l : list A) : timeCap under_15 l = take 3 l.
Proof.
  pose proof under_15_ne_30_45. unfold timeCap. repeat case_decide; done.
Qed.

(** C14: "30–45 minutes" keeps the first 5 meals. *)
Theorem timeCap_30_45 (l : list A) : timeCap min_30_45 l = take 5 l.
Proof.
  pose proof under_15_ne_30_45. unfold timeCap. repeat case_decide; subst; done.
Qed.

(** C15: any other selection keeps everything. *)
Theorem timeCap_other time (l : list A) :
  time <> under_15 -> time <> min_30_45 -> timeCap time l = l.
Proof. intros H1 H2. unfold timeCap. by repeat case_decide. Qed.

(** the cap only truncates: its result is a prefix of its input. *)
Theorem timeCap_take time (l : list A) : exists n, timeCap time l = take n l.
Proof.
  pose proof under_15_ne_30_45 as Hne. unfold timeCap. cbn zeta.
  case_decide as H2; case_decide as H1; subst.
  - done.
  - by exists 5.
  - by exists 3.
  - exists (length l). by rewrite firstn_all.
Qed.

End TimeCap.

Lemma finalMeals_sublist `{ToLowerCase} exclude time l :
  sublist (finalMeals exclude time l) l.
Proof.
  unfold finalMeals. destruct (timeCap_take time (excludeFilter exclude l)) as [n ->].
  etrans; [apply sublist_take|apply excludeFilter_sublist].
Qed.

(** A meal [finalMeals] keeps passed the exclusion filter. *)
Lemma finalMeals_kept `{ToLowerCase} exclude time l m :
  m ∈ finalMeals exclude time l -> exclude = [] \/ keep_meal (toLowerCase exclude) m = true.
Proof.
  intros Hm. assert (m ∈ excludeFilter exclude l) as Hf.
  { eapply elem_of_sublist; [exact Hm|]. unfold finalMeals.
    destruct (timeCap_take time (excludeFilter exclude l)) as [n ->]. apply sublist_take. }
  unfold excludeFilter in Hf. destruct exclude as [|c e]; [by left|right].
  cbv zeta in Hf. cbn [str_truthy] in Hf. apply list_elem_of_In, filter_In in Hf. apply Hf.
Qed.

(** ** Witnesses *)

Lemma slots_loop_terminates_witness :
  exists b, slots_loop 21 ⟦"beef"⟧ [(slot_key 3, Some ⟦"Lamb"⟧)] 1 = Some b.
Proof. apply slots_loop_terminates; lia. Defined.

Lemma timeCap_other_witness : timeCap hour_or_more [1; 2; 3; 4; 5; 6] = [1; 2; 3; 4; 5; 6].
Proof. apply timeCap_other; vm_compute; discriminate. Defined.
