(* ===== verification/Async.v ===== *)
(** * Promises, Promise.all and the fetch monad

    A settled promise is a [response]: [Rejected] or [Resolved a].  The
    rejection reason is not kept: the only handler, the [catch] of
    [fetchRecipes] (lines 94-97), logs it and shows one fixed message.

    [promise_all] is the value [await Promise.all(ps)] produces (lines 64
    and 75).  [all_settle] is the algorithm of [Promise.all] itself, run
    on the responses in the order they arrive: a [remaining] counter, a
    [values] array filled by index, the first rejection settling the
    whole promise.  [all_run_order] proves the outcome the same for every
    arrival order.  [batch_in] awaits a batch through that algorithm, for a
    given arrival order.

    [Fetch] is the monad of the async body: a log of the requests issued
    and a response.  [batch] is [Promise.all(xs.map(async (x) => ...))]:
    every request of the batch is issued first, then the join. *)

From S2P Require Import Prelude JsString JsValue.

Inductive response (A : Type) :=
  | Rejected
  | Resolved (a : A).
Arguments Rejected {A}.
Arguments Resolved {A} a.

Definition res_bind {A B} (r : response A) (f : A -> response B) : response B :=
  match r with Rejected => Rejected | Resolved a => f a end.

(** [await Promise.all(rs)]. *)
Fixpoint promise_all {A} (rs : list (response A)) : response (list A) :=
  match rs with
  | [] => Resolved []
  | r :: rs' => res_bind r (fun a => res_bind (promise_all rs') (fun l => Resolved (a :: l)))
  end.

(** ** Promise.all as it runs *)

Record all_state (A : Type) := {
  all_values : list (option A);
  all_remaining : nat;
  all_outcome : option (response (list A))
}.
Arguments all_values {A}.
Arguments all_remaining {A}.
Arguments all_outcome {A}.

(** Before any settlement; an empty input resolves at once with [[]]. *)
Definition all_init {A} (n : nat) : all_state A :=
  {| all_values := replicate n None; all_remaining := n;
     all_outcome := if n =? 0 then Some (Resolved []) else None |}.

(** Promise [i] settles with [rs !! i].  Once the outcome is decided,
    later settlements change nothing. *)
Definition all_settle {A} (rs : list (response A)) (st : all_state A) (i : nat) : all_state A :=
  match all_outcome st with
  | Some _ => st
  | None =>
      match rs !! i with
      | None => st
      | Some Rejected =>
          {| all_values := all_values st; all_remaining := all_remaining st;
             all_outcome := Some Rejected |}
      | Some (Resolved a) =>
          let vals := <[i := Some a]> (all_values st) in
          let rem := all_remaining st - 1 in
          {| all_values := vals; all_remaining := rem;
             all_outcome := if rem =? 0 then Some (Resolved (omap id vals)) else None |}
      end
  end.

(** The responses arriving in [order]. *)
Definition all_run {A} (rs : list (response A)) (order : list nat) : all_state A :=
  fold_left (all_settle rs) order (all_init (length rs)).

(** ** The fetch monad *)

(** The two endpoints of TheMealDB the component calls (lines 56, 69). *)
Inductive request :=
  | FilterReq (ingredient : jsstr)
  | LookupReq (id : jsstr).

#[export] Instance request_eq_dec : EqDecision request.
Proof. solve_decision. Defined.

Definition Fetch (A : Type) : Type := list request * response A.

Definition fret {A} (a : A) : Fetch A := ([], Resolved a).

Definition fbind {A B} (m : Fetch A) (k : A -> Fetch B) : Fetch B :=
  match m with
  | (t, Rejected) => (t, Rejected)
  | (t, Resolved a) => let '(t', r) := k a in (t ++ t', r)
  end.

Notation "'let!' x := m 'in' k" := (fbind m (fun x => k))
  (at level 200, x name, m at level 100, k at level 200) : rf_scope.

(** [await Promise.all(xs.map(async (x) => ...))]: the calls run up to
    their first [await] in array order, so every request is issued; the
    join then waits for all of them. *)
Definition batch {X B} (req : X -> option request) (resp : X -> response B) (xs : list X) :
  Fetch (list B) :=
  (omap req xs, promise_all (map resp xs)).

(** The same batch when the responses arrive in [order] (indices into
    [xs]), [Promise.all] run as it settles: [None] while it is still
    pending, so the [await] has not resumed. *)
Definition batch_in {X B} (req : X -> option request) (resp : X -> response B) (xs : list X)
    (order : list nat) : option (Fetch (list B)) :=
  option_map (fun r => (omap req xs, r)) (all_outcome (all_run (map resp xs) order)).

(** ** Lemmas on promise_all *)

Section PromiseAll.
Context {A : Type}.
Implicit Types rs : list (response A).

Lemma promise_all_rejected rs : promise_all rs = Rejected <-> Rejected ∈ rs.
Proof.
  induction rs as [|[|a] rs IH]; cbn.
  - split; [done|]. by intros ?%elem_of_nil.
  - split; [intros _; apply elem_of_cons; by left|done].
  - rewrite elem_of_cons, <- IH. destruct (promise_all rs); cbn; naive_solver.
Qed.

Lemma promise_all_resolved rs l : promise_all rs = Resolved l <-> rs = Resolved <$> l.
Proof.
  revert l. induction rs as [|[|a] rs IH]; intros [|b l]; cbn; try naive_solver.
  - destruct (promise_all rs); cbn; naive_solver.
  - specialize (IH l). destruct (promise_all rs); cbn; naive_solver.
Qed.

Lemma promise_all_not_rejected rs :
  Rejected ∉ rs -> exists l, rs = Resolved <$> l /\ promise_all rs = Resolved l.
Proof.
  intros H. destruct (promise_all rs) as [|l] eqn:E.
  - by apply promise_all_rejected in E.
  - exists l. by rewrite <- promise_all_resolved.
Qed.

Lemma promise_all_map_rejected {X} (f : X -> response A) xs x :
  x ∈ xs -> f x = Rejected -> promise_all (map f xs) = Rejected.
Proof.
  intros Hin Hr. apply promise_all_rejected. rewrite <- Hr.
  apply list_elem_of_In, in_map, list_elem_of_In, Hin.
Qed.

Lemma promise_all_map_resolved {X} (f : X -> response A) xs l :
  promise_all (map f xs) = Resolved l -> Forall2 (fun x a => f x = Resolved a) xs l.
Proof.
  rewrite promise_all_resolved. revert l. induction xs as [|x xs IH]; intros [|a l]; cbn; try done.
  intros [= Hx Hxs]. constructor; [done|]. by apply IH.
Qed.

End PromiseAll.

(** ** Promise.all settles the same way whatever the arrival order *)

Section AllRun.
Context {A : Type} (rs : list (response A)).

(** After the promises of [p] have settled: either one of them was
    rejected and so is the whole, or all of them resolved, their values
    sit at their indices and the count of the others is [remaining]. *)
Definition all_inv (p : list nat) (st : all_state A) : Prop :=
  ((exists i, i ∈ p /\ rs !! i = Some Rejected) /\ all_outcome st = Some Rejected) \/
  ((forall i, i ∈ p -> exists a, rs !! i = Some (Resolved a)) /\
   length (all_values st) = length rs /\
   (forall i a, all_values st !! i = Some (Some a) <-> i ∈ p /\ rs !! i = Some (Resolved a)) /\
   all_remaining st = length rs - length p /\
   all_outcome st =
     if length p =? length rs then Some (Resolved (omap id (all_values st))) else None).

Lemma all_inv_init : all_inv [] (all_init (length rs)).
Proof.
  right. cbn. split_and!.
  - by intros i ?%elem_of_nil.
  - apply length_replicate.
  - intros i a. rewrite lookup_replicate. split; [naive_solver|]. by intros [?%elem_of_nil _].
  - lia.
  - destruct (length rs); [|done]. done.
Qed.

Lemma prefix_length_lt p i :
  NoDup (i :: p) -> Forall (fun j => j < length rs) (i :: p) -> length p < length rs.
Proof.
  intros Hnd Hlt. apply NoDup_ListNoDup in Hnd.
  apply (NoDup_incl_length (l' := seq 0 (length rs))) in Hnd.
  - cbn in Hnd. rewrite length_seq in Hnd. lia.
  - intros j Hj. apply in_seq. rewrite Forall_forall in Hlt.
    specialize (Hlt j (proj2 (list_elem_of_In _ _) Hj)). lia.
Qed.

Lemma all_inv_settle p st i :
  all_inv p st -> NoDup (i :: p) -> Forall (fun j => j < length rs) (i :: p) ->
  all_inv (p ++ [i]) (all_settle rs st i).
Proof.
  intros Hinv Hnd Hlt. pose proof (prefix_length_lt p i Hnd Hlt) as Hp.
  apply Forall_cons in Hlt as [Hi _]. apply NoDup_cons in Hnd as [Hip _].
  destruct (lookup_lt_is_Some_2 rs i Hi) as [r Hr].
  destruct Hinv as [[(j & Hj & Hrj) Hout]|(Hres & Hlen & Hvals & Hrem & Hout)].
  - left. unfold all_settle. rewrite Hout. split; [|done]. exists j. split; [set_solver|done].
  - replace (Nat.eqb (length p) (length rs)) with false in Hout by (symmetry; apply Nat.eqb_neq; lia).
    unfold all_settle. rewrite Hout, Hr. destruct r as [|a].
    + left. split; [|done]. exists i. split; [set_solver|done].
    + right. cbn. rewrite length_app, length_insert. cbn. split_and!.
      * intros j [Hj|Hj%list_elem_of_singleton]%elem_of_app; [by apply Hres|subst; eauto].
      * done.
      * intros j b. rewrite elem_of_app, list_elem_of_singleton.
        destruct (decide (j = i)) as [->|Hne].
        -- rewrite list_lookup_insert_eq by lia. naive_solver.
        -- rewrite list_lookup_insert_ne, Hvals by done. naive_solver.
      * lia.
      * rewrite Hrem. destruct (Nat.eqb_spec (length p + 1) (length rs));
          destruct (Nat.eqb_spec (length rs - length p - 1) 0); first [done|lia].
Qed.

Lemma all_inv_run q p st :
  all_inv p st -> NoDup (p ++ q) -> Forall (fun j => j < length rs) (p ++ q) ->
  all_inv (p ++ q) (fold_left (all_settle rs) q st).
Proof.
  revert p st. induction q as [|i q IH]; intros p st Hinv Hnd Hlt; cbn [fold_left].
  - by rewrite app_nil_r.
  - rewrite cons_middle, app_assoc in *. apply IH; [|done|done].
    apply all_inv_settle; [done| |].
    + apply NoDup_app in Hnd as (Hnd & _ & _). apply NoDup_app in Hnd as (Hp & Hdis & _).
      apply NoDup_cons. split; [|done]. intros Hi. apply (Hdis i Hi). set_solver.
    + apply Forall_app in Hlt as [Hlt _]. apply Forall_app in Hlt as [Hp Hi].
      apply Forall_cons. split; [by inversion Hi|done].
Qed.

Lemma all_values_resolved (vals : list (option A)) l :
  length vals = length rs -> rs = Resolved <$> l ->
  (forall i a, vals !! i = Some (Some a) <-> rs !! i = Some (Resolved a)) ->
  omap id vals = l.
Proof.
  intros Hlen Hl Hv. rewrite Hl in Hlen, Hv. enough (vals = Some <$> l) as ->.
  { apply omap_id_Some. }
  apply list_eq. intros i. rewrite list_lookup_fmap.
  destruct (l !! i) as [a|] eqn:E; cbn.
  - apply Hv. by rewrite list_lookup_fmap, E.
  - apply lookup_ge_None. apply lookup_ge_None in E. rewrite Hlen, length_fmap. lia.
Qed.

(** whatever the order in which the [n] promises settle (any
    permutation of their indices), [Promise.all] settles as [promise_all]:
    rejected if one of them is rejected, otherwise resolved with the values
    in index order. *)
Theorem all_run_order order :
  Permutation order (seq 0 (length rs)) ->
  all_outcome (all_run rs order) = Some (promise_all rs).
Proof.
  intros Hperm.
  assert (NoDup order) as Hnd by (rewrite Hperm; apply NoDup_seq).
  assert (forall i, i ∈ order <-> i < length rs) as Hin.
  { intros i. rewrite Hperm, elem_of_seq. lia. }
  assert (length order = length rs) as Hlen by (rewrite Hperm; apply length_seq).
  pose proof (all_inv_run order [] _ all_inv_init Hnd) as Hinv. cbn [app] in Hinv.
  destruct Hinv as [[(i & Hi & Hr) Hout]|(Hres & Hvlen & Hvals & _ & Hout)].
  - apply Forall_forall. intros i Hi. by apply Hin.
  - unfold all_run. rewrite Hout. f_equal. symmetry. apply promise_all_rejected.
    apply list_elem_of_lookup. eauto.
  - unfold all_run. rewrite Hout, Hlen, Nat.eqb_refl.
    destruct (promise_all_not_rejected rs) as (l & Hl & ->).
    + intros (i & Hi)%list_elem_of_lookup.
      destruct (Hres i) as [a Ha]; [apply Hin; by eapply lookup_lt_Some|congruence].
    + do 2 f_equal. apply (all_values_resolved _ _ Hvlen Hl).
      intros i a. rewrite Hvals, Hin. split; [naive_solver|].
      intros Ha. split; [by eapply lookup_lt_Some|done].
Qed.

(** [Promise.all] rejects as soon as one rejected promise has
    settled, without waiting for the others (no cancellation: they keep
    running, their results are ignored). *)
Theorem all_run_reject_early p :
  NoDup p -> Forall (fun j => j < length rs) p ->
  (exists i, i ∈ p /\ rs !! i = Some Rejected) ->
  all_outcome (all_run rs p) = Some Rejected.
Proof.
  intros Hnd Hlt (i & Hi & Hr).
  destruct (all_inv_run p [] _ all_inv_init Hnd Hlt) as [[_ Hout]|(Hres & _)]; [done|].
  destruct (Hres i Hi) as [a Ha]. congruence.
Qed.

End AllRun.

(** ** A batch awaited as its responses arrive *)

Lemma batch_in_perm {X B} req (resp : X -> response B) xs order :
  Permutation order (seq 0 (length xs)) -> batch_in req resp xs order = Some (batch req resp xs).
Proof.
  intros Hp. unfold batch_in, batch. rewrite all_run_order; [done|]. by rewrite length_map.
Qed.

Lemma batch_in_reject {X B} req (resp : X -> response B) xs order i x :
  NoDup order -> Forall (fun j => j < length xs) order -> i ∈ order ->
  xs !! i = Some x -> resp x = Rejected ->
  batch_in req resp xs order = Some (omap req xs, Rejected).
Proof.
  intros Hnd Hlt Hi Hx Hr. unfold batch_in. rewrite all_run_reject_early; [done|done| |].
  - eapply Forall_impl; [exact Hlt|]. intros j Hj. by rewrite length_map.
  - exists i. split; [done|]. change (map resp xs) with (resp <$> xs).
    rewrite list_lookup_fmap, Hx. cbn. by rewrite Hr.
Qed.
