(* ===== verification/FetchRecipes.v ===== *)
(** * The body of the try block of fetchRecipes (RecipeFinder.jsx lines 53-92)

    TheMealDB is an oracle [MealDB]: for each endpoint, the settled
    promise of [fetch(url)] followed by [res.json()], reduced to the field
    [data.meals] ([None] for [null] or absent).  [filter.php] receives
    [encodeURIComponent(ing)], which the server decodes back to
    [String(ing)]; [lookup.php] receives [`${meal.idMeal}`] unencoded.

    [fetch_filter] and [fetch_detail] are the two [async] callbacks;
    [fetchRecipes_body] chains the two batches, [mergeMeals],
    [.filter(Boolean)] and [finalMeals].  The contract a well-behaved
    server keeps is the class [MealDBContract].  [fetchRecipes_sched] is
    the same block run as the responses arrive in a scheduled order. *)

From S2P Require Import Prelude JsString JsValue MergeMeals Filters Async.

Record MealDB := {
  filter_php : jsstr -> response (option (list meal));
  lookup_php : jsstr -> response (option (list meal))
}.

(** What the component relies on from the server: summaries carry a
    string id, and a detail returned for id [k] carries the id [k]. *)
Class MealDBContract (db : MealDB) := {
  filter_php_id : forall q ms m,
    filter_php db q = Resolved (Some ms) -> m ∈ ms -> exists s, idMeal m = JStr s;
  lookup_php_id : forall k ms d,
    lookup_php db k = Resolved (Some ms) -> d ∈ ms -> idMeal d = JStr k
}.

Section Body.
Context `{ToLowerCase} (db : MealDB).

(** Lines 54-62: [encodeURIComponent(ing)] throws a URIError on a term
    that is not well-formed UTF-16, before any [fetch], and the async
    callback's promise rejects.  Otherwise [fetch(filter.php?i=...)],
    [res.json()] and [return data.meals || []]; the server decodes the
    query back to [String(ing)]. *)
Definition fetch_filter (ing : jsval) : response (list meal) :=
  if utf16_wf (ToString ing) then
    res_bind (filter_php db (ToString ing)) (fun meals =>
      Resolved (match meals with Some ms => ms | None => [] end))
  else Rejected.

(** Lines 67-73: [fetch(lookup.php?i=...)], [res.json()],
    [return data.meals ? data.meals[0] : null]; an empty array gives
    [undefined]. *)
Definition fetch_detail (m : meal) : response (option meal) :=
  res_bind (lookup_php db (ToString (idMeal m))) (fun meals =>
    Resolved (match meals with Some (d :: _) => Some d | _ => None end)).

(** The request a callback sends before its first [await]: none when
    [encodeURIComponent] throws (line 56); the id of line 69 is put in the
    URL unencoded, which never throws. *)
Definition filter_req (ing : jsval) : option request :=
  if utf16_wf (ToString ing) then Some (FilterReq (ToString ing)) else None.

Definition lookup_req (m : meal) : option request := Some (LookupReq (ToString (idMeal m))).

(** Lines 54-92 up to [setMeals]: the value the try block computes before
    it updates the state, with the requests it issues. *)
Definition fetchRecipes_body (exclude time : jsstr) (baseIngredients : list jsval) :
  Fetch (list meal) :=
  let! allMealsLists := batch filter_req fetch_filter baseIngredients in
  let allMeals := mergeMeals idMeal allMealsLists in
  let! detailed := batch lookup_req fetch_detail allMeals in
  let detailedMeals := omap id detailed in
  fret (finalMeals exclude time detailedMeals).

(** Lines 53-92 run as the responses arrive: the responses of the
    [filter.php] batch arrive in the order [order1], those of the
    [lookup.php] batch in the order [order2 n] for its [n] requests
    (indices into each batch; the second batch's size is only known once
    the first has settled).  [None] while an [await] is still pending.
    Every request of a batch is issued before its [await], so the requests
    do not depend on the orders. *)
Definition fetchRecipes_sched (order1 : list nat) (order2 : nat -> list nat)
    (exclude time : jsstr) (baseIngredients : list jsval) : option (Fetch (list meal)) :=
  match batch_in filter_req fetch_filter baseIngredients order1 with
  | None => None
  | Some (t1, Rejected) => Some (t1, Rejected)
  | Some (t1, Resolved allMealsLists) =>
      let allMeals := mergeMeals idMeal allMealsLists in
      match batch_in lookup_req fetch_detail allMeals (order2 (length allMeals)) with
      | None => None
      | Some (t2, r) =>
          Some (t1 ++ t2, res_bind r (fun detailed =>
            Resolved (finalMeals exclude time (omap id detailed))))
      end
  end.

End Body.

Section BodyLemmas.
Context `{ToLowerCase} (db : MealDB).

Lemma fetchRecipes_body_eq exclude time base :
  fetchRecipes_body db exclude time base =
  match promise_all (map (fetch_filter db) base) with
  | Rejected => (omap filter_req base, Rejected)
  | Resolved lists =>
      (omap filter_req base ++ omap lookup_req (mergeMeals idMeal lists),
       res_bind (promise_all (map (fetch_detail db) (mergeMeals idMeal lists)))
         (fun detailed => Resolved (finalMeals exclude time (omap id detailed))))
  end.
Proof.
  unfold fetchRecipes_body, fbind, batch, fret.
  destruct (promise_all (map (fetch_filter db) base)) as [|lists]; [done|].
  destruct (promise_all (map (fetch_detail db) _)); cbn; by rewrite ?app_nil_r.
Qed.

(** C9: the requests issued: one [filter.php] request per term, in term
    order; then, only if all of them succeeded, one [lookup.php] request
    per merged meal, in merged order. *)
Theorem fetchRecipes_body_trace exclude time base :
  fst (fetchRecipes_body db exclude time base) =
  omap filter_req base ++
  match promise_all (map (fetch_filter db) base) with
  | Rejected => []
  | Resolved lists => omap lookup_req (mergeMeals idMeal lists)
  end.
Proof.
  rewrite fetchRecipes_body_eq.
  destruct (promise_all (map (fetch_filter db) base)); cbn; by rewrite ?app_nil_r.
Qed.

(** C8: a failed [filter.php] request fails the search. *)
Theorem fetchRecipes_body_filter_reject exclude time base ing :
  ing ∈ base -> fetch_filter db ing = Rejected ->
  fetchRecipes_body db exclude time base = (omap filter_req base, Rejected).
Proof.
  intros Hin Hr. rewrite fetchRecipes_body_eq.
  by rewrite (promise_all_map_rejected _ _ _ Hin Hr).
Qed.

(** C7: once the summaries are in, one failed [lookup.php] request fails
    the whole search, however many others succeeded: no partial result. *)
Theorem fetchRecipes_body_lookup_reject exclude time base lists m :
  promise_all (map (fetch_filter db) base) = Resolved lists ->
  m ∈ mergeMeals idMeal lists -> fetch_detail db m = Rejected ->
  snd (fetchRecipes_body db exclude time base) = Rejected.
Proof.
  intros Hl Hin Hr. rewrite fetchRecipes_body_eq, Hl. cbn.
  by rewrite (promise_all_map_rejected _ _ _ Hin Hr).
Qed.

(** when every request succeeds the search yields [finalMeals] of the
    hydrated merged meals. *)
Theorem fetchRecipes_body_ok exclude time base lists dets :
  promise_all (map (fetch_filter db) base) = Resolved lists ->
  promise_all (map (fetch_detail db) (mergeMeals idMeal lists)) = Resolved dets ->
  snd (fetchRecipes_body db exclude time base) = Resolved (finalMeals exclude time (omap id dets)).
Proof. intros Hl Hd. rewrite fetchRecipes_body_eq, Hl. cbn. by rewrite Hd. Qed.

(** C33: what a successful search shows: both batches resolved, the meals
    are, in order, among the details the lookups returned, and each of them
    passed the exclusion filter of the search. *)
Theorem fetchRecipes_body_shown exclude time base ms :
  snd (fetchRecipes_body db exclude time base) = Resolved ms ->
  exists lists dets,
    promise_all (map (fetch_filter db) base) = Resolved lists /\
    promise_all (map (fetch_detail db) (mergeMeals idMeal lists)) = Resolved dets /\
    sublist ms (omap id dets) /\
    Forall (fun m => exclude = [] \/
      forall j, 1 <= j <= 20 -> ~ slot_matches (toLowerCase exclude) m j) ms.
Proof.
  rewrite fetchRecipes_body_eq.
  destruct (promise_all (map (fetch_filter db) base)) as [|lists] eqn:El; [done|]. cbn.
  destruct (promise_all (map (fetch_detail db) _)) as [|dets] eqn:Ed; cbn; intros [= <-].
  exists lists, dets. split_and!; [done|done|apply finalMeals_sublist|].
  apply Forall_forall. intros m [He|Hk]%finalMeals_kept; [by left|right].
  by apply keep_meal_spec.
Qed.

(** C6: the order in which the responses arrive does not matter: when the
    responses of each batch all arrive, in any order, the try block
    settles with exactly the requests and the result of
    [fetchRecipes_body]. *)
Theorem fetchRecipes_sched_order order1 order2 exclude time base :
  Permutation order1 (seq 0 (length base)) -> (forall n, Permutation (order2 n) (seq 0 n)) ->
  fetchRecipes_sched db order1 order2 exclude time base =
  Some (fetchRecipes_body db exclude time base).
Proof.
  intros H1 H2. unfold fetchRecipes_sched. rewrite fetchRecipes_body_eq, batch_in_perm by done.
  unfold batch at 1. destruct (promise_all (map (fetch_filter db) base)) as [|lists]; [done|].
  by rewrite batch_in_perm by apply H2.
Qed.

(** C28: the search fails as soon as one rejected [filter.php] response
    has arrived, whether or not the others ever arrive: [Promise.all]
    rejects at the first rejection and the [catch] runs. *)
Theorem fetchRecipes_sched_reject_early order1 order2 exclude time base i ing :
  NoDup order1 -> Forall (fun j => j < length base) order1 ->
  i ∈ order1 -> base !! i = Some ing -> fetch_filter db ing = Rejected ->
  fetchRecipes_sched db order1 order2 exclude time base = Some (omap filter_req base, Rejected).
Proof.
  intros Hnd Hlt Hi Hing Hr. unfold fetchRecipes_sched.
  by rewrite (batch_in_reject _ _ _ _ i ing).
Qed.

(** C35: a term that is not well-formed UTF-16 (a lone surrogate) fails the
    whole search, and its [filter.php] request is never sent:
    [encodeURIComponent] throws before the [fetch]. *)
Theorem fetchRecipes_body_uri_error exclude time base ing :
  ing ∈ base -> utf16_wf (ToString ing) = false ->
  fetchRecipes_body db exclude time base = (omap filter_req base, Rejected) /\
  FilterReq (ToString ing) ∉ fst (fetchRecipes_body db exclude time base).
Proof.
  intros Hin Hwf.
  assert (fetch_filter db ing = Rejected) as Hr by (unfold fetch_filter; by rewrite Hwf).
  rewrite fetchRecipes_body_eq, (promise_all_map_rejected _ _ _ Hin Hr). split; [done|].
  cbn [fst]. intros (x & _ & Hx)%list_elem_of_omap.
  unfold filter_req in Hx. case_match eqn:Ew; [|done].
  injection Hx as Hx. rewrite <- Hx in Hwf. congruence.
Qed.

End BodyLemmas.

(** ** Under the server contract, the results have distinct ids *)

Section Contract.
Context `{ToLowerCase} (db : MealDB) `{!MealDBContract db}.

Abbreviation string_id := (fun m => exists s, idMeal m = JStr s).

Lemma fetch_filter_ids ing ms :
  fetch_filter db ing = Resolved ms -> Forall string_id ms.
Proof.
  unfold fetch_filter. destruct (utf16_wf _); [|done].
  destruct (filter_php db _) as [|[ms'|]] eqn:E; cbn; intros [= <-]; [|done].
  apply Forall_forall. intros m Hm. by eapply filter_php_id.
Qed.

Lemma summaries_ids base lists :
  promise_all (map (fetch_filter db) base) = Resolved lists -> Forall string_id (concat lists).
Proof.
  intros Hl%promise_all_map_resolved. apply Forall_concat.
  induction Hl; constructor; eauto using fetch_filter_ids.
Qed.

Lemma fetch_detail_id m s d :
  idMeal m = JStr s -> fetch_detail db m = Resolved (Some d) -> idMeal d = idMeal m.
Proof.
  unfold fetch_detail. intros Hm. rewrite Hm. cbn [ToString].
  destruct (lookup_php db s) as [|[[|d' ms]|]] eqn:E; cbn; intros [= Hd]; subst d'.
  eapply lookup_php_id; [exact E|]. apply elem_of_cons. by left.
Qed.

(** with a server that keeps [MealDBContract], no two meals of a
    successful search share an [idMeal], so the React keys of the grid
    (line 173) are distinct. *)
Theorem fetchRecipes_body_NoDup exclude time base ms :
  snd (fetchRecipes_body db exclude time base) = Resolved ms -> NoDup (idMeal <$> ms).
Proof.
  rewrite fetchRecipes_body_eq.
  destruct (promise_all (map (fetch_filter db) base)) as [|lists] eqn:El; [done|]. cbn.
  destruct (promise_all (map (fetch_detail db) _)) as [|dets] eqn:Ed; cbn; intros [= <-].
  apply (sublist_NoDup _ (idMeal <$> mergeMeals idMeal lists)); [merge_to_ref; apply keep_first_NoDup|].
  etrans; [apply fmap_sublist, finalMeals_sublist|]. apply omap_keys_sublist.
  apply promise_all_map_resolved in Ed.
  assert (Forall string_id (mergeMeals idMeal lists)) as Hs.
  { pose proof (summaries_ids _ _ El) as Hc. rewrite Forall_forall in Hc.
    apply Forall_forall. intros m Hm. apply Hc.
    eapply elem_of_sublist; [exact Hm|apply mergeMeals_sublist]. }
  clear El. induction Ed as [|m o ms' os Hmo _ IH]; constructor.
  - apply Forall_cons in Hs as [[s Hsm] _]. intros d ->. by eapply fetch_detail_id.
  - apply IH. by apply Forall_cons in Hs as [_ ?].
Qed.

End Contract.
