(* ===== verification/Component.v ===== *)
(** * The RecipeFinder component as a state machine (RecipeFinder.jsx)

    [state] holds the eight [useState] cells (lines 5-12) and the searches
    started by [fetchRecipes] whose fetches have not settled yet
    ([inflight]), each with the values its closure captured.  Events are
    the handlers the markup wires: the four inputs (lines 126, 133, 145,
    157), the button (line 162, disabled while [loading]), a card of the
    grid (line 175), the popup's close (lines 185, 187) and the settling
    of an in-flight search ([Complete]).  [step] is the executable
    transition function and [ui_step] the step relation; they agree. *)

From S2P Require Import Prelude JsString JsValue Resolver MergeMeals Filters Async FetchRecipes.

(** A search between its start (line 48) and its end (line 99): the
    inputs its closure read, and the terms it queries. *)
Record search := {
  s_exclude : jsstr;
  s_time : jsstr;
  s_base : list jsval
}.

Record state := {
  ingredients : jsstr;
  exclude : jsstr;
  mood : jsstr;
  time : jsstr;
  meals : list meal;
  loading : bool;
  error : jsstr;
  selectedMeal : option meal;
  inflight : list search
}.

Definition msg_enter : jsstr := ⟦"Please enter at least one ingredient or choose a mood!"⟧.
Definition msg_none : jsstr := ⟦"No recipes found for your filters."⟧.
Definition msg_fail : jsstr := ⟦"Something went wrong. Please try again."⟧.

(** Lines 5-12. *)
Definition init : state :=
  {| ingredients := []; exclude := []; mood := []; time := []; meals := [];
     loading := false; error := []; selectedMeal := None; inflight := [] |}.

Inductive event :=
  | TypeIngredients (v : jsstr)
  | SelectMood (v : jsstr)
  | SelectTime (v : jsstr)
  | TypeExclude (v : jsstr)
  | ClickGetRecipes
  | Complete (i : nat) (db : MealDB)
  | ClickCard (m : meal)
  | ClosePopup.

(** The four form handlers (lines 126, 133, 145, 157): they write only
    the input cells. *)
Definition is_input (e : event) : bool :=
  match e with
  | TypeIngredients _ | SelectMood _ | SelectTime _ | TypeExclude _ => true
  | _ => false
  end.

Section Handlers.
Context `{ToLowerCase}.

(** Lines 35-51: the synchronous part of [fetchRecipes], up to the first
    [await]; the fetches it starts become a search in flight. *)
Definition start_search (s : state) : state :=
  let base := baseIngredients (ingredients s) (mood s) in
  if length base =? 0 then
    {| ingredients := ingredients s; exclude := exclude s; mood := mood s; time := time s;
       meals := meals s; loading := loading s; error := msg_enter;
       selectedMeal := selectedMeal s; inflight := inflight s |}
  else
    {| ingredients := ingredients s; exclude := exclude s; mood := mood s; time := time s;
       meals := []; loading := true; error := [];
       selectedMeal := None;
       inflight := inflight s ++ [{| s_exclude := exclude s; s_time := time s; s_base := base |}] |}.

(** Lines 92-99: the end of search [i], given what its try block
    computed. *)
Definition end_search (s : state) (i : nat) (r : response (list meal)) : state :=
  let rest := delete i (inflight s) in
  match r with
  | Resolved fm =>
      {| ingredients := ingredients s; exclude := exclude s; mood := mood s; time := time s;
         meals := fm; loading := false;
         error := if length fm =? 0 then msg_none else error s;
         selectedMeal := selectedMeal s; inflight := rest |}
  | Rejected =>
      {| ingredients := ingredients s; exclude := exclude s; mood := mood s; time := time s;
         meals := meals s; loading := false; error := msg_fail;
         selectedMeal := selectedMeal s; inflight := rest |}
  end.

Definition set_selected (s : state) (o : option meal) : state :=
  {| ingredients := ingredients s; exclude := exclude s; mood := mood s; time := time s;
     meals := meals s; loading := loading s; error := error s;
     selectedMeal := o; inflight := inflight s |}.

Definition set_inputs (s : state) (ing ex md tm : jsstr) : state :=
  {| ingredients := ing; exclude := ex; mood := md; time := tm;
     meals := meals s; loading := loading s; error := error s;
     selectedMeal := selectedMeal s; inflight := inflight s |}.

(** The transition function; [None] when the event cannot happen: a
    select offers only its options, the button is disabled while
    [loading], only a rendered card or popup can be clicked. *)
Definition step (s : state) (e : event) : option state :=
  match e with
  | TypeIngredients v => Some (set_inputs s v (exclude s) (mood s) (time s))
  | SelectMood v =>
      if decide (v ∈ mood_options) then Some (set_inputs s (ingredients s) (exclude s) v (time s))
      else None
  | SelectTime v =>
      if decide (v ∈ time_options) then Some (set_inputs s (ingredients s) (exclude s) (mood s) v)
      else None
  | TypeExclude v => Some (set_inputs s (ingredients s) v (mood s) (time s))
  | ClickGetRecipes => if loading s then None else Some (start_search s)
  | Complete i db =>
      match inflight s !! i with
      | Some sr => Some (end_search s i (snd (fetchRecipes_body db (s_exclude sr) (s_time sr) (s_base sr))))
      | None => None
      end
  | ClickCard m => if decide (m ∈ meals s) then Some (set_selected s (Some m)) else None
  | ClosePopup => if selectedMeal s then Some (set_selected s None) else None
  end.

(** A sequence of events from a state, stopping at an impossible one. *)
Fixpoint run (s : state) (es : list event) : option state :=
  match es with
  | [] => Some s
  | e :: es' => match step s e with Some s' => run s' es' | None => None end
  end.

Inductive ui_step : state -> event -> state -> Prop :=
  | step_type_ingredients s v :
      ui_step s (TypeIngredients v) (set_inputs s v (exclude s) (mood s) (time s))
  | step_select_mood s v :
      v ∈ mood_options -> ui_step s (SelectMood v) (set_inputs s (ingredients s) (exclude s) v (time s))
  | step_select_time s v :
      v ∈ time_options -> ui_step s (SelectTime v) (set_inputs s (ingredients s) (exclude s) (mood s) v)
  | step_type_exclude s v :
      ui_step s (TypeExclude v) (set_inputs s (ingredients s) v (mood s) (time s))
  | step_click s :
      loading s = false -> ui_step s ClickGetRecipes (start_search s)
  | step_complete s i db sr :
      inflight s !! i = Some sr ->
      ui_step s (Complete i db)
        (end_search s i (snd (fetchRecipes_body db (s_exclude sr) (s_time sr) (s_base sr))))
  | step_card s m :
      m ∈ meals s -> ui_step s (ClickCard m) (set_selected s (Some m))
  | step_close s m :
      selectedMeal s = Some m -> ui_step s ClosePopup (set_selected s None).

(** The servers an event may consult. *)
Definition event_server (P : MealDB -> Prop) (e : event) : Prop :=
  match e with Complete _ db => P db | _ => True end.

(** The states reached from [init] when every search is answered by a
    server satisfying [P]. *)
Inductive reachable_with (P : MealDB -> Prop) : state -> Prop :=
  | reach_init : reachable_with P init
  | reach_step s e s' :
      reachable_with P s -> event_server P e -> ui_step s e s' -> reachable_with P s'.

Definition reachable : state -> Prop := reachable_with (fun _ => True).

End Handlers.

(** ** The invariant of reachable states *)

(** What holds in every reachable state: at most one search in flight,
    exactly when [loading]; while loading, the grid, the error and the
    popup are cleared; a selected meal is one of the grid; the selects
    hold one of their options; results and an error message are never
    shown together, and the message is one of the two the search sets. *)
Definition ui_inv (s : state) : Prop :=
  length (inflight s) = (if loading s then 1 else 0) /\
  (loading s = true -> meals s = [] /\ error s = [] /\ selectedMeal s = None) /\
  (forall m, selectedMeal s = Some m -> m ∈ meals s) /\
  mood s ∈ mood_options /\ time s ∈ time_options /\
  (meals s <> [] -> error s = []) /\
  error s ∈ [[]; msg_none; msg_fail].

Section Invariant.
Context `{ToLowerCase}.

Lemma step_ui_step s e s' : step s e = Some s' <-> ui_step s e s'.
Proof.
  split.
  - destruct e; cbn; repeat case_decide; try destruct (loading s) eqn:?;
      try destruct (inflight s !! i) eqn:?; try destruct (selectedMeal s) eqn:?;
      intros [=]; subst; econstructor; eauto.
  - destruct 1; cbn; repeat case_decide; try done.
    + by destruct (loading s).
    + by rewrite H0.
    + by rewrite H0.
Qed.

Lemma ui_inv_init : ui_inv init.
Proof.
  unfold ui_inv, init. cbn [inflight loading meals selectedMeal mood time error length].
  split_and!; try done; apply elem_of_cons; by left.
Qed.

Lemma start_search_loading s :
  loading (start_search s) = true /\ meals (start_search s) = [] /\
  error (start_search s) = [] /\ selectedMeal (start_search s) = None /\
  inflight (start_search s) = inflight s ++
    [{| s_exclude := exclude s; s_time := time s; s_base := baseIngredients (ingredients s) (mood s) |}].
Proof.
  unfold start_search. destruct (length (baseIngredients (ingredients s) (mood s)) =? 0) eqn:E.
  - apply Nat.eqb_eq in E. pose proof (baseIngredients_length (ingredients s) (mood s)). lia.
  - done.
Qed.

Lemma ui_inv_set_inputs s ing ex md tm :
  ui_inv s -> md ∈ mood_options -> tm ∈ time_options -> ui_inv (set_inputs s ing ex md tm).
Proof. intros (H1 & H2 & H3 & _ & _ & H6 & H7) Hm Ht. by split_and!. Qed.

Lemma ui_inv_set_selected s o :
  ui_inv s -> (forall m, o = Some m -> m ∈ meals s) -> ui_inv (set_selected s o).
Proof.
  intros (H1 & H2 & H3 & H4 & H5 & H6 & H7) Ho. split_and!; try done.
  intros Hl. destruct (H2 Hl) as (M & E & S). split_and!; try done.
  destruct o as [m|]; [|done]. specialize (Ho m eq_refl). rewrite M in Ho. by apply elem_of_nil in Ho.
Qed.

Lemma ui_inv_start s : ui_inv s -> loading s = false -> ui_inv (start_search s).
Proof.
  intros (H1 & H2 & H3 & H4 & H5 & H6 & H7) Hl.
  pose proof (start_search_loading s) as (L & M & E & S & I).
  rewrite Hl in H1. unfold ui_inv. rewrite L, M, E, S, I, length_app, H1.
  split_and!; try done; [unfold start_search; by case_match..|apply elem_of_cons; by left].
Qed.

Lemma ui_inv_end s i sr r :
  ui_inv s -> inflight s !! i = Some sr -> ui_inv (end_search s i r).
Proof.
  intros (Hlen & Hload & Hsel & Hmood & Htime & Hme & Herr) Hi.
  assert (loading s = true) as Hl.
  { destruct (loading s); [done|]. apply lookup_lt_Some in Hi. lia. }
  rewrite Hl in Hlen. destruct (Hload Hl) as (M & E & S).
  assert (i = 0) as -> by (apply lookup_lt_Some in Hi; lia).
  destruct (inflight s) as [|sr' [|]] eqn:Ef; try done.
  unfold ui_inv, end_search. rewrite Ef.
  destruct r as [|fm]; cbn [meals loading error selectedMeal inflight mood time delete list_delete length].
  - rewrite S, M. split_and!; try done.
    apply elem_of_cons; right; apply elem_of_cons; right; apply elem_of_cons; by left.
  - rewrite S. split_and!; try done.
    + intros Hne. destruct (length fm =? 0) eqn:Z; [|done].
      apply Nat.eqb_eq, length_zero_iff_nil in Z. done.
    + destruct (length fm =? 0).
      * apply elem_of_cons; right; apply elem_of_cons; by left.
      * rewrite E. apply elem_of_cons; by left.
Qed.

Lemma ui_inv_step s e s' : ui_inv s -> ui_step s e s' -> ui_inv s'.
Proof.
  intros Hinv Hstep. pose proof Hinv as (_ & _ & _ & Hmood & Htime & _).
  destruct Hstep as [s v|s v Hv|s v Hv|s v|s Hl|s i db sr Hi|s m Hm|s m Hm].
  1-4: by apply ui_inv_set_inputs.
  - by apply ui_inv_start.
  - by eapply ui_inv_end.
  - apply ui_inv_set_selected; [done|]. by intros ? [= <-].
  - by apply ui_inv_set_selected.
Qed.

Lemma reachable_inv P s : reachable_with P s -> ui_inv s.
Proof. induction 1; eauto using ui_inv_init, ui_inv_step. Qed.

Lemma run_reachable_with P es s0 s :
  reachable_with P s0 -> Forall (event_server P) es -> run s0 es = Some s -> reachable_with P s.
Proof.
  revert s0. induction es as [|e es IH]; intros s0 Hr Hes; cbn; [by intros [= <-]|].
  apply Forall_cons in Hes as [He Hes].
  destruct (step s0 e) as [s1|] eqn:E; [|done]. apply IH; [|done].
  eapply reach_step; [exact Hr|exact He|apply step_ui_step; exact E].
Qed.

Lemma run_reachable es s : run init es = Some s -> reachable s.
Proof.
  apply run_reachable_with; [constructor|]. apply Forall_forall. intros [] _; exact I.
Qed.

(** C1: at most one search is ever in flight: the button is disabled while
    [loading], so the race of two searches overwriting each other's
    results cannot happen. *)
Theorem at_most_one_search s : reachable s -> length (inflight s) <= 1.
Proof. intros (Hlen & _)%reachable_inv. rewrite Hlen. destruct (loading s); lia. Qed.

(** C2: while a search is in flight the button cannot start another. *)
Theorem no_second_search s s' :
  reachable s -> inflight s <> [] -> ~ ui_step s ClickGetRecipes s'.
Proof.
  intros (Hlen & _)%reachable_inv Hne Hst. inversion Hst as [| | | |? Hl| | |]; subst.
  rewrite Hl in Hlen. by destruct (inflight s).
Qed.

(** C24: results and an error message are never shown together. *)
Theorem results_no_error s : reachable s -> meals s <> [] -> error s = [].
Proof. intros (_ & _ & _ & _ & _ & Hme & _)%reachable_inv. apply Hme. Qed.

Lemma msg_enter_not_shown : msg_enter ∉ [[]; msg_none; msg_fail].
Proof. vm_compute. intros Hin. repeat (apply elem_of_cons in Hin as [Hin|Hin]; [discriminate|]). by apply elem_of_nil in Hin. Qed.

(** C25: the message of line 44 is never shown: the guard of line 43 never
    fires. *)
Theorem error_never_enter s : reachable s -> error s <> msg_enter.
Proof.
  intros (_ & _ & _ & _ & _ & _ & Herr)%reachable_inv He. rewrite He in Herr.
  by apply msg_enter_not_shown.
Qed.

(** C34: a selected meal is always one of the grid. *)
Theorem selected_in_grid s m : reachable s -> selectedMeal s = Some m -> m ∈ meals s.
Proof. intros (_ & _ & Hsel & _)%reachable_inv. apply Hsel. Qed.

(** C26: progress: when idle the button starts a search; a search in flight
    can always end, and ending it clears [loading]. *)
Theorem search_progress s db :
  reachable s ->
  (loading s = false -> exists s', ui_step s ClickGetRecipes s' /\ loading s' = true) /\
  (loading s = true -> exists s', ui_step s (Complete 0 db) s' /\ loading s' = false).
Proof.
  intros (Hlen & _)%reachable_inv. split; intros Hl.
  - exists (start_search s). split; [by constructor|apply start_search_loading].
  - rewrite Hl in Hlen. destruct (inflight s) as [|sr [|]] eqn:E; try done.
    eexists. split; [apply (step_complete s 0 db sr); by rewrite E|].
    unfold end_search. by case_match.
Qed.

Lemma end_search_set_inputs s i r ing ex md tm :
  end_search (set_inputs s ing ex md tm) i r = set_inputs (end_search s i r) ing ex md tm.
Proof. by destruct r. Qed.

(** C30: typing in the form and the end of a search commute: an input
    event followed by the settling of search [i] reaches the same state as
    the settling followed by the input event.  A search's result never
    depends on what is typed while it runs. *)
Theorem input_complete_commute s e i db s1 s2 :
  is_input e = true -> ui_step s e s1 -> ui_step s1 (Complete i db) s2 ->
  exists s1', ui_step s (Complete i db) s1' /\ ui_step s1' e s2.
Proof.
  intros He H1 H2. inversion H2 as [| | | | |? ? ? sr Hi| |]; subst. revert Hi.
  destruct H1 as [s v|s v Hv|s v Hv|s v| | | |]; try discriminate; intros Hi;
    (exists (end_search s i (snd (fetchRecipes_body db (s_exclude sr) (s_time sr) (s_base sr))));
     split; [by apply (step_complete s i db sr)|]);
    rewrite end_search_set_inputs;
    destruct (snd (fetchRecipes_body db _ _ _)); apply step_ui_step; cbn [step];
    rewrite ?decide_True by done; reflexivity.
Qed.

(** when every search is answered by a server keeping
    [MealDBContract], the cards of the grid have distinct [idMeal] keys. *)
Theorem grid_keys_NoDup s :
  reachable_with (fun db => MealDBContract db) s -> NoDup (idMeal <$> meals s).
Proof.
  induction 1 as [|s e s' Hr IH He Hst]; [constructor|].
  destruct Hst as [s v|s v Hv|s v Hv|s v|s Hl|s i db sr Hi|s m Hm|s m Hm]; try done.
  - rewrite (proj1 (proj2 (start_search_loading s))). constructor.
  - unfold end_search. cbn in He.
    destruct (snd (fetchRecipes_body db _ _ _)) as [|fm] eqn:E; [done|].
    by eapply fetchRecipes_body_NoDup.
Qed.

End Invariant.
