(* ===== verification/View.v ===== *)
(** * What the component renders (RecipeFinder.jsx lines 104-232)

    The parts of the markup that depend on the state: the button's label
    and [disabled] flag (lines 162-164), the error paragraph (line 167),
    the cards of the grid (lines 170-181) and the popup (lines 184-230)
    with its list of ingredients (lines 200-213).  React renders a string
    child as its text and [null], [undefined] or [false] as nothing
    ([render]).  Static markup (headers, images, class names) is not
    modelled. *)

From S2P Require Import Prelude JsString JsValue Resolver MergeMeals Filters Async FetchRecipes Component.

(** A JSX child [{v}]. *)
Definition render (v : jsval) : jsstr :=
  match v with JStr s => s | _ => [] end.

(** Lines 162-164: [disabled={loading}] and the label. *)
Definition button_view (s : state) : bool * jsstr :=
  (loading s, if loading s then ⟦"Searching..."⟧ else ⟦"Get Recipes"⟧).

(** Line 167: [{error && <p className="error">{error}</p>}]. *)
Definition error_view (s : state) : option jsstr :=
  if str_truthy (error s) then Some (error s) else None.

Record card := {
  card_key : jsval;
  card_img : jsval;
  card_title : jsstr
}.

(** Lines 171-180: one card per meal, keyed by [idMeal]. *)
Definition grid_view (s : state) : list card :=
  map (fun m => {| card_key := idMeal m; card_img := field m ⟦"strMealThumb"⟧;
                   card_title := render (field m ⟦"strMeal"⟧) |}) (meals s).

(** [`strMeasure${n}`] *)
Definition measure_key (n : nat) : jsstr := ⟦"strMeasure"⟧ ++ nat_to_js n.

(** Lines 203-211: slot [n] gives the item [<li key={n}>{ing} {measure && `- ${measure}`}</li>]
    when [ing] is truthy, else [null]. *)
Definition popup_item (m : meal) (n : nat) : option (nat * jsstr) :=
  let ing := field m (slot_key n) in
  let measure := field m (measure_key n) in
  if truthy ing then
    Some (n, render ing ++ ⟦" "⟧ ++ (if truthy measure then ⟦"- "⟧ ++ ToString measure else []))
  else None.

(** Lines 202-212: [Array.from({ length: 20 }, (_, i) => i + 1).map(...).filter(Boolean)]. *)
Definition popup_items (m : meal) : list (nat * jsstr) :=
  omap (popup_item m) (seq 1 20).

Record popup := {
  pop_title : jsstr;
  pop_category : jsstr;
  pop_area : jsstr;
  pop_items : list (nat * jsstr);
  pop_instructions : jsstr;
  pop_youtube : option jsstr
}.

(** Lines 184-230: [{selectedMeal && (...)}]; the link paragraph only
    when [strYoutube] is truthy. *)
Definition popup_view (s : state) : option popup :=
  match selectedMeal s with
  | None => None
  | Some m =>
      let yt := field m ⟦"strYoutube"⟧ in
      Some {| pop_title := render (field m ⟦"strMeal"⟧);
              pop_category := render (field m ⟦"strCategory"⟧);
              pop_area := render (field m ⟦"strArea"⟧);
              pop_items := popup_items m;
              pop_instructions := render (field m ⟦"strInstructions"⟧);
              pop_youtube := if truthy yt then Some (ToString yt) else None |}
  end.

(** ** Theorems *)

Lemma popup_item_key m n x : popup_item m n = Some x -> fst x = n.
Proof. unfold popup_item. by case_match; intros [= <-]. Qed.

(** C31: the popup lists at most 20 ingredients, keyed by slot numbers
    taken in increasing order from 1..20, so the React keys are distinct. *)
Theorem popup_items_keys m : sublist (fst <$> popup_items m) (seq 1 20).
Proof.
  unfold popup_items. rewrite <- (list_fmap_id (seq 1 20)) at 2.
  apply omap_key_sublist, popup_item_key.
Qed.

(** slot [n] is listed exactly when [1 <= n <= 20] and the slot holds a
    non-empty string. *)
Theorem popup_items_slots m n :
  n ∈ fst <$> popup_items m <-> 1 <= n <= 20 /\ truthy (field m (slot_key n)) = true.
Proof.
  unfold popup_items. rewrite list_elem_of_fmap. setoid_rewrite list_elem_of_omap.
  split.
  - intros ([k t] & -> & j & Hj%elem_of_seq & Hi). pose proof (popup_item_key _ _ _ Hi) as Hk.
    cbn in Hk |- *. subst j. unfold popup_item in Hi. split; [lia|]. by destruct (truthy _).
  - intros [Hn Ht]. eexists. split;
      [|exists n; split; [apply elem_of_seq; lia|unfold popup_item; rewrite Ht; reflexivity]].
    done.
Qed.

(** C32: the popup of a meal the exclusion filter kept lists no ingredient
    whose lower case contains the lowered exclusion text. *)
Theorem popup_respects_exclusion `{ToLowerCase} e m n :
  keep_meal e m = true -> n ∈ fst <$> popup_items m ->
  exists s, field m (slot_key n) = JStr s /\ s <> [] /\ ~ exists l r, toLowerCase s = l ++ e ++ r.
Proof.
  intros Hk (Hn & Ht)%popup_items_slots. rewrite keep_meal_spec in Hk.
  specialize (Hk n Hn). unfold slot_matches in Hk.
  destruct (field m (slot_key n)) as [| |s|r] eqn:E; try done.
  - assert (s <> []) as Hs by (by destruct s).
    exists s. split_and!; [done|done|]. intros Hin. apply Hk. by exists s.
  - by apply field_not_obj in E.
Qed.

(** C27: in every reachable state the button is disabled exactly while a
    search is in flight. *)
Theorem button_disabled_iff s :
  reachable s -> fst (button_view s) = true <-> inflight s <> [].
Proof.
  intros (Hlen & _)%reachable_inv. cbn. destruct (loading s), (inflight s); cbn in *; naive_solver.
Qed.

(** C23: with a server keeping [MealDBContract], the React keys of the
    cards are distinct. *)
Theorem grid_view_keys s :
  reachable_with (fun db => MealDBContract db) s -> NoDup (card_key <$> grid_view s).
Proof.
  intros Hr. enough (card_key <$> grid_view s = idMeal <$> meals s) as -> by by apply grid_keys_NoDup.
  unfold grid_view. induction (meals s) as [|m ms IH]; [done|]. simpl. f_equal. exact IH.
Qed.
