(* ===== verification/Scenarios.v ===== *)
(** * Concrete runs of the component against a fixture server

    A small TheMealDB ([fixture_db]) that keeps [MealDBContract], servers
    that fail ([failing_db], [down_db]), and states reached by running
    events with [Component.run] from [init].  The witnesses of the claims
    apply each claim at these concrete inputs, with the hypotheses
    discharged by evaluation. *)

From S2P Require Import Prelude JsString JsValue Resolver MergeMeals Filters Async FetchRecipes Component View.

Definition slot_fields (key : nat -> jsstr) (vals : list jsstr) : meal :=
  map (fun i => (key i, Some (default [] (vals !! (i - 1))))) (seq 1 20).

Definition summary (id name : string) : meal :=
  [(⟦"idMeal"⟧, Some (js id)); (⟦"strMeal"⟧, Some (js name));
   (⟦"strMealThumb"⟧, Some (⟦"https://img/"⟧ ++ js id))].

Definition detail (id name : string) (ings : list string) : meal :=
  summary id name ++ [(⟦"strCategory"⟧, Some ⟦"Main"⟧); (⟦"strArea"⟧, Some ⟦"British"⟧);
                      (⟦"strInstructions"⟧, Some ⟦"Cook."⟧); (⟦"strYoutube"⟧, None)] ++
  slot_fields slot_key (map js ings) ++ slot_fields measure_key (map (fun _ => ⟦"1 cup"⟧) ings).

Definition d1 := detail "1" "Roast Chicken" ["Chicken"; "Salt"].
Definition d2 := detail "2" "Chicken Rice" ["Chicken"; "Rice"; "Olive Oil"].
Definition d3 := detail "3" "Rice Pudding" ["Rice"; "Milk"].
Definition d4 := detail "4" "Chili Con Carne" ["Chili"; "Beef Mince"].
Definition d5 := detail "5" "Bean Chili" ["Chili"; "Beans"].
Definition d6 := detail "6" "Chili Soup" ["Tomato"; "Chili"].
Definition d7 := detail "7" "Chili Stew" ["Chili"; "beef stock"].
Definition d8 := detail "8" "Chili Rice" ["Chili"; "Rice"].
Definition d9 := detail "9" "Chili Onions" ["Chili"; "Onion"].

Definition fixture_details : list meal := [d1; d2; d3; d4; d5; d6; d7; d8; d9].

Definition summary_of (d : meal) : meal :=
  [(⟦"idMeal"⟧, Some (ToString (idMeal d)))].

Definition fixture_filter (q : jsstr) : response (option (list meal)) :=
  if decide (q = ⟦"chicken"⟧) then Resolved (Some (map summary_of [d1; d2]))
  else if decide (q = ⟦"rice"⟧) then Resolved (Some (map summary_of [d2; d3; d8]))
  else if decide (q = ⟦"chili"⟧) then Resolved (Some (map summary_of [d4; d5; d6; d7; d8; d9]))
  else Resolved None.

Definition fixture_lookup (k : jsstr) : response (option (list meal)) :=
  Resolved (match List.filter (fun d => bool_decide (idMeal d = JStr k)) fixture_details with
            | [] => None
            | ds => Some ds
            end).

Definition fixture_db : MealDB := {| filter_php := fixture_filter; lookup_php := fixture_lookup |}.

(** The same server with [lookup.php?i=2] failing. *)
Definition failing_db : MealDB :=
  {| filter_php := fixture_filter;
     lookup_php := fun k => if decide (k = ⟦"2"⟧) then Rejected else fixture_lookup k |}.

Definition search_by (ing : string) (db : MealDB) : list event :=
  [TypeIngredients (js ing); ClickGetRecipes; Complete 0 db].

(** A server whose [filter.php] always fails. *)
Definition down_db : MealDB :=
  {| filter_php := fun _ => Rejected; lookup_php := fixture_lookup |}.

(** The state after a run of events ([init] if one is impossible). *)
Definition after (es : list event) : state := default init (run init es).

(** A search in flight, and a finished search with a card opened. *)
Definition es_loading : list event := [TypeIngredients ⟦"chicken"⟧; ClickGetRecipes].
Definition es_done : list event := search_by "chicken, rice" fixture_db ++ [ClickCard d2].

(** ** The fixture keeps the server contract *)

Lemma idMeal_summary_of d : idMeal (summary_of d) = JStr (ToString (idMeal d)).
Proof. reflexivity. Qed.

#[export] Instance fixture_contract : MealDBContract fixture_db.
Proof.
  split.
  - intros q ms m. cbn [filter_php fixture_db]. unfold fixture_filter.
    repeat case_decide; intros E Hm; inversion E; subst;
      apply list_elem_of_In in Hm; simpl in Hm;
      repeat (destruct Hm as [<-|Hm]; [eexists; apply idMeal_summary_of|]); done.
  - intros k ms d. cbn [lookup_php fixture_db]. unfold fixture_lookup.
    destruct (List.filter _ _) as [|d' ds] eqn:E; intros Heq Hd; inversion Heq; subst.
    rewrite <- E in Hd. apply list_elem_of_In, filter_In in Hd as [_ Hd].
    by apply bool_decide_eq_true in Hd.
Qed.

(** ** Witnesses *)

Lemma reach_loading : reachable (after es_loading).
Proof. apply (run_reachable es_loading). vm_compute. reflexivity. Qed.

Lemma reach_done : reachable_with (fun db => MealDBContract db) (after es_done).
Proof.
  apply (run_reachable_with _ es_done init); [constructor| |vm_compute; reflexivity].
  repeat (apply Forall_cons; split; [first [exact I|exact fixture_contract]|]). constructor.
Qed.

Lemma reach_done_any : reachable (after es_done).
Proof. apply (run_reachable es_done). vm_compute. reflexivity. Qed.

Lemma at_most_one_search_witness : length (inflight (after es_loading)) <= 1.
Proof. apply at_most_one_search, reach_loading. Defined.

Lemma no_second_search_witness :
  ~ ui_step (after es_loading) ClickGetRecipes (start_search (after es_loading)).
Proof. apply no_second_search; [apply reach_loading|vm_compute; discriminate]. Defined.

Lemma results_no_error_witness : error (after es_done) = [].
Proof. apply results_no_error; [apply reach_done_any|vm_compute; discriminate]. Defined.

Lemma error_never_enter_witness : error (after es_done) <> msg_enter.
Proof. apply error_never_enter, reach_done_any. Defined.

Lemma search_progress_witness :
  (loading (after es_loading) = false ->
     exists s', ui_step (after es_loading) ClickGetRecipes s' /\ loading s' = true) /\
  (loading (after es_loading) = true ->
     exists s', ui_step (after es_loading) (Complete 0 fixture_db) s' /\ loading s' = false).
Proof. apply search_progress, reach_loading. Defined.

Lemma button_disabled_iff_witness :
  fst (button_view (after es_loading)) = true <-> inflight (after es_loading) <> [].
Proof. apply button_disabled_iff, reach_loading. Defined.

Lemma grid_view_keys_witness : NoDup (card_key <$> grid_view (after es_done)).
Proof. apply grid_view_keys, reach_done. Defined.

Lemma fetchRecipes_body_lookup_reject_witness :
  snd (fetchRecipes_body failing_db [] [] [JStr ⟦"chicken"⟧; JStr ⟦"rice"⟧]) = Rejected.
Proof.
  apply (fetchRecipes_body_lookup_reject failing_db [] [] _
           [[summary_of d1; summary_of d2]; [summary_of d2; summary_of d3; summary_of d8]]
           (summary_of d2)).
  - vm_compute. reflexivity.
  - apply (bool_decide_unpack _). vm_compute. reflexivity.
  - vm_compute. reflexivity.
Defined.

Lemma fetchRecipes_body_filter_reject_witness :
  fetchRecipes_body down_db ⟦"beef"⟧ [] [JStr ⟦"egg"⟧] = (omap filter_req [JStr ⟦"egg"⟧], Rejected).
Proof.
  apply (fetchRecipes_body_filter_reject down_db _ _ _ (JStr ⟦"egg"⟧));
    [apply elem_of_cons; by left|reflexivity].
Defined.

Lemma popup_respects_exclusion_witness :
  exists s, field d5 (slot_key 2) = JStr s /\ s <> [] /\
    ~ exists l r, toLowerCase s = l ++ toLowerCase ⟦"beef"⟧ ++ r.
Proof.
  apply popup_respects_exclusion; [vm_compute; reflexivity|].
  apply (bool_decide_unpack _). vm_compute. reflexivity.
Defined.

Lemma excludeFilter_case_insensitive_witness :
  excludeFilter ⟦"BEEF"⟧ [d4; d5] = excludeFilter (map ascii_lower ⟦"BEEF"⟧) [d4; d5].
Proof. apply excludeFilter_case_insensitive. repeat constructor. Defined.

Lemma selected_in_grid_witness : d2 ∈ meals (after es_done).
Proof. apply (selected_in_grid (after es_done) d2); [apply reach_done_any|vm_compute; reflexivity]. Defined.

Lemma input_complete_commute_witness :
  exists s1', ui_step (after es_loading) (Complete 0 fixture_db) s1' /\
    ui_step s1' (TypeExclude ⟦"beef"⟧)
      (after (es_loading ++ [TypeExclude ⟦"beef"⟧; Complete 0 fixture_db])).
Proof.
  apply (input_complete_commute _ _ _ _ (after (es_loading ++ [TypeExclude ⟦"beef"⟧])));
    [reflexivity|apply step_ui_step; vm_compute; reflexivity..].
Defined.

Lemma fetchRecipes_body_shown_witness :
  exists lists dets,
    promise_all (map (fetch_filter fixture_db) [JStr ⟦"chili"⟧]) = Resolved lists /\
    promise_all (map (fetch_detail fixture_db) (mergeMeals idMeal lists)) = Resolved dets /\
    sublist [d5; d6; d8] (omap id dets) /\
    Forall (fun m => ⟦"beef"⟧ = [] \/
      forall j, 1 <= j <= 20 -> ~ slot_matches (toLowerCase ⟦"beef"⟧) m j) [d5; d6; d8].
Proof.
  apply (fetchRecipes_body_shown fixture_db ⟦"beef"⟧ under_15 [JStr ⟦"chili"⟧]).
  vm_compute. reflexivity.
Defined.

Lemma fetchRecipes_sched_order_witness :
  fetchRecipes_sched fixture_db [1; 0] (fun n => rev (seq 0 n)) [] []
    [JStr ⟦"chicken"⟧; JStr ⟦"rice"⟧] =
  Some (fetchRecipes_body fixture_db [] [] [JStr ⟦"chicken"⟧; JStr ⟦"rice"⟧]).
Proof.
  apply fetchRecipes_sched_order.
  - apply (bool_decide_unpack _). vm_compute. reflexivity.
  - intros n. symmetry. apply Permutation_rev.
Defined.

Lemma fetchRecipes_sched_reject_early_witness :
  fetchRecipes_sched down_db [0] (fun _ => []) [] [] [JStr ⟦"egg"⟧; JStr ⟦"rice"⟧] =
  Some (omap filter_req [JStr ⟦"egg"⟧; JStr ⟦"rice"⟧], Rejected).
Proof.
  apply (fetchRecipes_sched_reject_early down_db _ _ [] [] _ 0 (JStr ⟦"egg"⟧)).
  - apply NoDup_singleton.
  - apply Forall_cons. split; [cbn; lia|constructor].
  - apply elem_of_cons. by left.
  - reflexivity.
  - vm_compute. reflexivity.
Defined.

Lemma fetchRecipes_body_uri_error_witness :
  fetchRecipes_body fixture_db [] [] [JStr ⟦"rice"⟧; JStr [55296%N]] =
    (omap filter_req [JStr ⟦"rice"⟧; JStr [55296%N]], Rejected) /\
  FilterReq [55296%N] ∉ fst (fetchRecipes_body fixture_db [] [] [JStr ⟦"rice"⟧; JStr [55296%N]]).
Proof.
  apply (fetchRecipes_body_uri_error fixture_db [] [] _ (JStr [55296%N])).
  - apply elem_of_cons. right. apply elem_of_cons. by left.
  - reflexivity.
Defined.
